(** * The document reducer and the graphs of the RAG research agent

    A shallow embedding of [src/shared/utils.py] (the reducer of the
    [documents] channel), [src/shared/state.py], [src/graphs/main_graph.py],
    [src/graphs/researcher_graph.py], [src/graphs/index_graph.py],
    [src/shared/configuration_manager.py] and
    [src/crud/milvus_crud_manager.py], followed by the properties the
    specification states about them. *)

From Stdlib Require Import ZArith String Ascii List Lia.
From stdpp Require Import base option gmap strings list sets.

Local Open Scope string_scope.
Local Open Scope list_scope.

(** ** [hashlib.md5]

    [_generate_uuid] hashes the page content with MD5.  The digest is
    computed here on 32-bit words held in [Z], every addition reduced
    modulo [2^32] (RFC 1321). *)
Module md5.

Local Open Scope Z_scope.

Definition mask32 (x : Z) : Z := Z.land x 4294967295.

Definition add32 (x y : Z) : Z := (x + y) mod 4294967296.

Definition not32 (x : Z) : Z := Z.lxor x 4294967295.

Definition rotl32 (x c : Z) : Z :=
  mask32 (Z.lor (Z.shiftl x c) (Z.shiftr x (32 - c))).

(** [K[i] = floor (2^32 * |sin (i + 1)|)]. *)
Definition K : list Z :=
  [ 3614090360; 3905402710; 606105819; 3250441966; 4118548399; 1200080426;
    2821735955; 4249261313; 1770035416; 2336552879; 4294925233; 2304563134;
    1804603682; 4254626195; 2792965006; 1236535329; 4129170786; 3225465664;
    643717713; 3921069994; 3593408605; 38016083; 3634488961; 3889429448;
    568446438; 3275163606; 4107603335; 1163531501; 2850285829; 4243563512;
    1735328473; 2368359562; 4294588738; 2272392833; 1839030562; 4259657740;
    2763975236; 1272893353; 4139469664; 3200236656; 681279174; 3936430074;
    3572445317; 76029189; 3654602809; 3873151461; 530742520; 3299628645;
    4096336452; 1126891415; 2878612391; 4237533241; 1700485571; 2399980690;
    4293915773; 2240044497; 1873313359; 4264355552; 2734768916; 1309151649;
    4149444226; 3174756917; 718787259; 3951481745 ].

(** Per-round left-rotation amounts. *)
Definition S : list Z :=
  [ 7; 12; 17; 22; 7; 12; 17; 22; 7; 12; 17; 22; 7; 12; 17; 22;
    5; 9; 14; 20; 5; 9; 14; 20; 5; 9; 14; 20; 5; 9; 14; 20;
    4; 11; 16; 23; 4; 11; 16; 23; 4; 11; 16; 23; 4; 11; 16; 23;
    6; 10; 15; 21; 6; 10; 15; 21; 6; 10; 15; 21; 6; 10; 15; 21 ].

(** [n] as [k] little-endian bytes. *)
Fixpoint le_bytes (k : nat) (n : Z) : list Z :=
  match k with
  | O => []
  | Datatypes.S k' => (n mod 256) :: le_bytes k' (n / 256)
  end.

Fixpoint le_words (k : nat) (bytes : list Z) : list Z :=
  match k with
  | O => []
  | Datatypes.S k' =>
      match bytes with
      | b0 :: b1 :: b2 :: b3 :: rest =>
          (b0 + 256 * b1 + 65536 * b2 + 16777216 * b3) :: le_words k' rest
      | _ => []
      end
  end.

(** The message, a [1] bit, zero bits up to 448 modulo 512, and the
    bit length on 64 bits. *)
Definition pad (bytes : list Z) : list Z :=
  let n := Z.of_nat (length bytes) in
  bytes ++ [128] ++ repeat 0 (Z.to_nat ((55 - n) mod 64))
        ++ le_bytes 8 ((8 * n) mod 18446744073709551616).

Definition state : Type := Z * Z * Z * Z.

Definition round_step (M : list Z) (st : state) (i : Z) : state :=
  let '(A, B, C, D) := st in
  let '(F, g) :=
    if i <? 16 then (Z.lor (Z.land B C) (Z.land (not32 B) D), i)
    else if i <? 32 then
      (Z.lor (Z.land D B) (Z.land (not32 D) C), (5 * i + 1) mod 16)
    else if i <? 48 then (Z.lxor (Z.lxor B C) D, (3 * i + 5) mod 16)
    else (Z.lxor C (Z.lor B (not32 D)), (7 * i) mod 16) in
  let F := add32 (add32 (add32 F A) (nth (Z.to_nat i) K 0))
                 (nth (Z.to_nat g) M 0) in
  (D, add32 B (rotl32 F (nth (Z.to_nat i) S 0)), B, C).

Definition rounds : list Z := map Z.of_nat (seq 0 64).

Definition chunk_step (st : state) (chunk : list Z) : state :=
  let '(a0, b0, c0, d0) := st in
  let '(A, B, C, D) := fold_left (round_step (le_words 16 chunk)) rounds st in
  (add32 a0 A, add32 b0 B, add32 c0 C, add32 d0 D).

Fixpoint chunks (n : nat) (bytes : list Z) (st : state) : state :=
  match n with
  | O => st
  | Datatypes.S n' =>
      chunks n' (skipn 64 bytes) (chunk_step st (firstn 64 bytes))
  end.

Definition init : state := (1732584193, 4023233417, 2562383102, 271733878).

Definition digest (bytes : list Z) : list Z :=
  let padded := pad bytes in
  let '(a0, b0, c0, d0) := chunks (length padded / 64)%nat padded init in
  le_bytes 4 a0 ++ le_bytes 4 b0 ++ le_bytes 4 c0 ++ le_bytes 4 d0.

Definition hex_digit (n : Z) : ascii :=
  if n <? 10 then ascii_of_N (Z.to_N (48 + n))
  else ascii_of_N (Z.to_N (87 + n)).

Fixpoint hex (bytes : list Z) : string :=
  match bytes with
  | [] => EmptyString
  | b :: rest => String (hex_digit (b / 16)) (String (hex_digit (b mod 16)) (hex rest))
  end.

(** [str.encode()]: a [string] is held as its UTF-8 bytes. *)
Fixpoint encode (s : string) : list Z :=
  match s with
  | EmptyString => []
  | String c rest => Z.of_N (N_of_ascii c) :: encode rest
  end.

(** [hashlib.md5(data).hexdigest()] *)
Definition hexdigest (s : string) : string := hex (digest (encode s)).

End md5.

(** [str(uuid.UUID(h))] for a string [h] of 32 hexadecimal digits:
    the digits in groups of 8, 4, 4, 4 and 12. *)
Definition uuid_str (h : string) : string :=
  String.substring 0 8 h +:+ "-" +:+ String.substring 8 4 h +:+ "-"
  +:+ String.substring 12 4 h +:+ "-" +:+ String.substring 16 4 h +:+ "-"
  +:+ String.substring 20 12 h.

(** [_generate_uuid] of [shared/utils.py]. *)
Definition _generate_uuid (page_content : string) : string :=
  let md5_hash := md5.hexdigest page_content in
  uuid_str md5_hash.

Arguments _generate_uuid : simpl never.

(** ** Python values, exceptions and results *)

(** The values a metadata mapping holds, as far as the reducer looks at
    them: [None], integers (Python's [bool] is a subclass of [int],
    [True == 1]) and strings.  These are the hashable scalars whose
    equality is the one a Python [set] uses. *)
Inductive value : Type :=
| VNone
| VInt (z : Z)
| VStr (s : string).

#[global] Instance value_eq_dec : EqDecision value.
Proof. solve_decision. Defined.

#[global] Instance value_countable : Countable value.
Proof.
  refine (inj_countable'
    (λ v, match v with
          | VNone => inl ()
          | VInt z => inr (inl z)
          | VStr s => inr (inr s)
          end)
    (λ x, match x with
          | inl _ => VNone
          | inr (inl z) => VInt z
          | inr (inr s) => VStr s
          end) _).
  by intros [].
Defined.

(** Truth value testing: [None], [0] and the empty string are false. *)
Definition truthy (v : value) : bool :=
  match v with
  | VNone => false
  | VInt z => negb (z =? 0)%Z
  | VStr s => negb (String.eqb s "")
  end.

(** [a or b] *)
Definition py_or (a b : value) : value := if truthy a then a else b.

Inductive exn : Type :=
| TypeError (msg : string)
| KeyError (key : string)
| ValueError (msg : string)
| NotImplementedError (msg : string)
| OtherError (msg : string).

Inductive result (A : Type) : Type :=
| Ok (a : A)
| Raise (e : exn).

Arguments Ok {A} a.
Arguments Raise {A} e.

#[global] Instance result_ret : MRet result := λ A a, Ok a.

#[global] Instance result_bind : MBind result := λ A B f m,
  match m with
  | Ok a => f a
  | Raise e => Raise e
  end.

(** ** Documents ([langchain_core.documents.Document]) *)

Record Document : Type := mkDocument {
  page_content : string;
  metadata : gmap string value
}.

#[global] Instance Document_eq_dec : EqDecision Document.
Proof. solve_decision. Defined.

(** A [dict] item of the list input.  Only the keys the reducer reads are
    kept: ["page_content"] and ["metadata"], each of which may be absent
    ([item.get] supplies the defaults). *)
Record dict_item : Type := mkDict {
  d_page_content : option string;
  d_metadata : option (gmap string value)
}.

(** The items of a list input: [str], [dict], [Document], or anything
    else (no branch of the loop matches it). *)
Inductive item : Type :=
| IStr (s : string)
| IDict (d : dict_item)
| IDoc (doc : Document)
| IOther.

(** The [new] argument of [reduce_docs]: a [str] (the literal ["delete"]
    among them), a [list], or any other object. *)
Inductive new_input : Type :=
| NStr (s : string)
| NList (items : list item)
| NOther.

#[global] Instance dict_item_eq_dec : EqDecision dict_item.
Proof. solve_decision. Defined.

#[global] Instance item_eq_dec : EqDecision item.
Proof. solve_decision. Defined.

#[global] Instance new_input_eq_dec : EqDecision new_input.
Proof. solve_decision. Defined.

(** The constructor of [Document] called on keyword arguments:
    [page_content] is a required argument. *)
Definition Document_of_kwargs (pc : option string) (md : gmap string value)
  : result Document :=
  match pc with
  | Some s => Ok (mkDocument s md)
  | None =>
      Raise (TypeError "Document.__init__() missing 1 required positional argument: 'page_content'")
  end.

(** ** [reduce_docs] ([shared/utils.py]) *)

(** [doc.metadata.get("uuid")] *)
Definition metadata_get_uuid (doc : Document) : value :=
  default VNone (metadata doc !! "uuid").

(** The id line 122 derives for a [dict] item. *)
Definition dict_item_id (d : dict_item) : value :=
  let metadata := default ∅ (d_metadata d) in
  py_or (default VNone (metadata !! "uuid"))
        (VStr (_generate_uuid (default "" (d_page_content d)))).

(** Lines 133 to 139: the id of a [Document] item and the item that is
    appended for it (a deep copy with the id written to it when the item
    carried none). *)
Definition doc_item_id_new (doc : Document) : value * Document :=
  let item_id := default (VStr "") (metadata doc !! "uuid") in
  if negb (truthy item_id) then
    let item_id := VStr (_generate_uuid (page_content doc)) in
    (item_id, mkDocument (page_content doc) (<["uuid" := item_id]> (metadata doc)))
  else (item_id, doc).

(** The loop of lines 114 to 143, on its two variables [existing_ids]
    and [new_list]. *)
Fixpoint reduce_items (items : list item) (existing_ids : gset value)
    (new_list : list Document) : result (list Document) :=
  match items with
  | [] => Ok new_list
  | IStr s :: rest =>
      let item_id := VStr (_generate_uuid s) in
      reduce_items rest ({[item_id]} ∪ existing_ids)
        (new_list ++ [mkDocument s {["uuid" := item_id]}])
  | IDict d :: rest =>
      let metadata := default ∅ (d_metadata d) in
      let item_id := dict_item_id d in
      if decide (item_id ∉ existing_ids) then
        new_item ← Document_of_kwargs (d_page_content d)
                     (<["uuid" := item_id]> metadata);
        reduce_items rest ({[item_id]} ∪ existing_ids) (new_list ++ [new_item])
      else reduce_items rest existing_ids new_list
  | IDoc doc :: rest =>
      let '(item_id, new_item) := doc_item_id_new doc in
      if decide (item_id ∉ existing_ids) then
        reduce_items rest ({[item_id]} ∪ existing_ids) (new_list ++ [new_item])
      else reduce_items rest existing_ids new_list
  | IOther :: rest => reduce_items rest existing_ids new_list
  end.

Definition reduce_docs (existing : option (list Document)) (new : new_input)
  : result (list Document) :=
  if decide (new = NStr "delete") then Ok []
  else
    let existing_list := default [] existing in
    match new with
    | NStr s =>
        Ok (existing_list
              ++ [mkDocument s {["uuid" := VStr (_generate_uuid s)]}])
    | NList items =>
        let existing_ids : gset value :=
          list_to_set (metadata_get_uuid <$> existing_list) in
        new_list ← reduce_items items existing_ids [];
        Ok (existing_list ++ new_list)
    | NOther => Ok (existing_list ++ [])
    end.

(** ** The state of the graphs ([shared/state.py]) *)

Record message : Type := mkMessage {
  role : string;
  content : string
}.

Record QueryState : Type := mkQueryState {
  query : string
}.

Record ResearcherState : Type := mkResearcherState {
  question : string;
  queries : list string;
  r_documents : list Document
}.

Record InputState : Type := mkInputState {
  in_messages : list message
}.

Record Router : Type := mkRouter {
  logic : string;
  type : string
}.

Record AgentState : Type := mkAgentState {
  messages : list message;
  router : Router;
  steps : list string;
  documents : list Document
}.

Record IndexState : Type := mkIndexState {
  i_messages : list message;
  i_documents : list Document
}.

(** The partial update a node of the main graph returns: a [dict] with
    some of the keys of [AgentState]. *)
Record AgentUpdate : Type := mkAgentUpdate {
  upd_messages : option (list message);
  upd_router : option Router;
  upd_steps : option (list string);
  upd_documents : option new_input
}.

(** The channels of [AgentState]: [messages] is annotated with
    [add_messages] (the new messages are appended), [documents] with
    [reduce_docs], [router] and [steps] are overwritten.  A key the
    update does not hold leaves its channel as it is. *)
Definition apply_update (st : AgentState) (u : AgentUpdate)
  : result AgentState :=
  docs ← match upd_documents u with
         | None => Ok (documents st)
         | Some new => reduce_docs (Some (documents st)) new
         end;
  Ok {| messages := match upd_messages u with
                    | None => messages st
                    | Some new => messages st ++ new
                    end;
        router := default (router st) (upd_router u);
        steps := default (steps st) (upd_steps u);
        documents := docs |}.

(** ** Configuration ([shared/configuration_manager.py]) *)

(** The objects a configuration attribute can hold: a string, a
    dictionary of keyword arguments, or a [dataclasses.Field] (what
    [field(default=...)] evaluates to). *)
Inductive pyobj : Type :=
| PStr (s : string)
| PDict (kw : gmap string value)
| PField (default_value : string).

(** A [RunnableConfig]: the ["configurable"] entry, and the names of the
    other keys it holds, whose values this code does not read. *)
Record RunnableConfig : Type := mkRunnableConfig {
  configurable : option (gmap string pyobj);
  other_keys : list string
}.

(** [not config] for a dictionary. *)
Definition config_is_empty (config : RunnableConfig) : bool :=
  match configurable config, other_keys config with
  | None, [] => true
  | _, _ => false
  end.

(** The dataclass [BaseConfiguration], with its three fields. *)
Record BaseConfiguration : Type := mkBaseConfiguration {
  embedding_model : pyobj;
  retriever_provider : pyobj;
  search_kwargs : pyobj
}.

Definition BaseConfiguration_fields : list string :=
  ["embedding_model"; "retriever_provider"; "search_kwargs"].

(** The generated [__init__] of [BaseConfiguration]: keyword arguments
    with the defaults of lines 33, 41 and 48. *)
Definition BaseConfiguration_init (kwargs : gmap string pyobj)
  : BaseConfiguration :=
  {| embedding_model :=
       default (PStr "ollama/bge-m3:latest") (kwargs !! "embedding_model");
     retriever_provider :=
       default (PStr "elastic-local") (kwargs !! "retriever_provider");
     search_kwargs := default (PDict ∅) (kwargs !! "search_kwargs") |}.

(** [IndexConfiguration] (line 118) subclasses [BaseConfiguration] and
    carries no [dataclass] decorator of its own, unlike
    [AgentConfiguration] (line 74).  It therefore inherits the three
    fields and the [__init__] of its base, and [docs_file] stays a plain
    class attribute bound to the object that [field(...)] returned. *)
Definition IndexConfiguration : Type := BaseConfiguration.

Definition IndexConfiguration_fields : list string := BaseConfiguration_fields.

Definition IndexConfiguration_docs_file (self : IndexConfiguration) : pyobj :=
  PField "src/sample_docs.json".

(** [IndexConfiguration.from_runnable_config] (lines 53 to 68).  The
    call of [ensure_config] (line 65) is left out here: [index_docs]
    reads only [docs_file] of the result, which no key of the
    configuration reaches. *)
Definition IndexConfiguration_from_runnable_config (config : RunnableConfig)
  : IndexConfiguration :=
  let configurable : gmap string pyobj :=
    match configurable config with
    | Some c => if decide (c = ∅) then ∅ else c
    | None => ∅
    end in
  let _fields := IndexConfiguration_fields in
  BaseConfiguration_init
    (filter (λ kv, kv.1 ∈ _fields) configurable).

(** [AgentConfiguration] as [from_runnable_config] builds it.  The
    defaults of the prompts come from [shared/prompts.py], which is not
    among the sources: the node functions below take the configuration
    as an argument. *)
Record AgentConfiguration : Type := mkAgentConfiguration {
  llm_model : string;
  router_system_prompt : string;
  more_info_system_prompt : string;
  general_system_prompt : string;
  research_plan_system_prompt : string;
  generate_queries_system_prompt : string;
  response_system_prompt : string
}.

(** How an f-string renders a configuration attribute.  A string is
    rendered as itself; the [repr] of the other objects is abbreviated. *)
Definition format_pyobj (o : pyobj) : string :=
  match o with
  | PStr s => s
  | PDict _ => "{...}"
  | PField _ => "Field(...)"
  end.

(** ** External collaborators

    The chat model (plain and with structured output), the retriever,
    the vector store and the file system are outside the repository.
    They are taken as an interface; a failure of any of them aborts the
    turn and is not modelled. *)

(** What [open(path)] followed by [json.load] gives. *)
Inductive file_outcome : Type :=
| FileNotFoundError
| JSONDecodeError
| Loaded (serialized_docs : new_input).

Class External : Type := mkExternal {
  (** [model.with_structured_output(Router).ainvoke] *)
  router_model : list message → Router;
  (** [model.with_structured_output(ResearchPlan).ainvoke], its [steps] *)
  plan_model : list message → list string;
  (** [model.with_structured_output(Response).ainvoke], its [queries] *)
  queries_model : list message → list string;
  (** [model.ainvoke] *)
  chat_model : list message → message;
  (** [retriever.ainvoke] *)
  retriever_ainvoke : string → list Document;
  (** [retriever.aadd_documents] on the contents of the vector store *)
  aadd_documents : list Document → list Document → result (list Document);
  (** the file system, read through [open] and [json.load] *)
  read_json_file : string → file_outcome
}.

Definition system (text : string) : message := mkMessage "system" text.

Definition human (text : string) : message := mkMessage "human" text.

(** ** The researcher subgraph ([graphs/researcher_graph.py]) *)

(** Waiting for a list of tasks ([asyncio.gather] in [conduct_research],
    the host framework for the tasks of a fan-out): the results in the
    order of the tasks, or the first exception. *)
Fixpoint gather {A : Type} (tasks : list (result A)) : result (list A) :=
  match tasks with
  | [] => Ok []
  | t :: rest => a ← t; l ← gather rest; Ok (a :: l)
  end.

(** [langgraph.types.Send] *)
Inductive Send : Type :=
| mkSend (node : string) (arg : QueryState).

Definition generate_queries `{External} (configuration : AgentConfiguration)
    (state : ResearcherState) : list string :=
  let messages :=
    [ system (generate_queries_system_prompt configuration);
      human (question state) ] in
  queries_model messages.

Definition retrieve_documents `{External} (state : QueryState)
  : list Document :=
  retriever_ainvoke (query state).

Definition retrieve_in_parallel (state : ResearcherState) : list Send :=
  let tasks :=
    (λ query, mkSend "retrieve_documents" (mkQueryState query))
      <$> queries state in
  tasks.

(** The task a [Send] starts; the researcher graph has one node that a
    [Send] can name. *)
Definition run_send `{External} (s : Send) : result (list Document) :=
  match s with
  | mkSend node arg =>
      if decide (node = "retrieve_documents") then Ok (retrieve_documents arg)
      else Raise (ValueError ("unknown node " +:+ node))
  end.

(** The [documents] channel of [ResearcherState] is annotated with
    [reduce_docs]: the write of every task is folded into it, one task
    after the other, in the order [writes] lists them. *)
Fixpoint merge_writes (docs : list Document) (writes : list (list Document))
  : result (list Document) :=
  match writes with
  | [] => Ok docs
  | w :: rest =>
      docs' ← reduce_docs (Some docs) (NList (IDoc <$> w));
      merge_writes docs' rest
  end.

(** One run of the compiled researcher graph on [{"question": step}]:
    [START], [generate_queries], the conditional edge
    [retrieve_in_parallel], one [retrieve_documents] task per [Send],
    [END]. *)
Definition researcher_graph_ainvoke `{External}
    (configuration : AgentConfiguration) (step : string)
  : result ResearcherState :=
  let state := mkResearcherState step [] [] in
  let state :=
    mkResearcherState (question state) (generate_queries configuration state)
      (r_documents state) in
  writes ← gather (run_send <$> retrieve_in_parallel state);
  docs ← merge_writes (r_documents state) writes;
  Ok (mkResearcherState (question state) (queries state) docs).

(** ** The main graph ([graphs/main_graph.py]) *)

Definition no_update : AgentUpdate := mkAgentUpdate None None None None.

Definition analyze_and_route_query `{External}
    (configuration : AgentConfiguration) (state : AgentState)
  : result AgentUpdate :=
  let messages :=
    [system (router_system_prompt configuration)] ++ messages state in
  let response := router_model messages in
  Ok (mkAgentUpdate None (Some response) None None).

Definition ask_for_more_info `{External}
    (configuration : AgentConfiguration) (state : AgentState)
  : result AgentUpdate :=
  let messages :=
    [system (more_info_system_prompt configuration)] ++ messages state in
  let response := chat_model messages in
  Ok (mkAgentUpdate (Some [response]) None None None).

Definition respond_to_general_query `{External}
    (configuration : AgentConfiguration) (state : AgentState)
  : result AgentUpdate :=
  let response_system_prompt := response_system_prompt configuration in
  let messages := [system response_system_prompt] ++ messages state in
  let response := chat_model messages in
  Ok (mkAgentUpdate (Some [response]) None None None).

Definition create_research_plan `{External}
    (configuration : AgentConfiguration) (state : AgentState)
  : result AgentUpdate :=
  let messages :=
    [system (research_plan_system_prompt configuration)] ++ messages state in
  let response := plan_model messages in
  Ok (mkAgentUpdate None None (Some response) None).

(** The research tasks [conduct_research] starts, one per step. *)
Definition research_tasks `{External} (configuration : AgentConfiguration)
    (state : AgentState) : list (result ResearcherState) :=
  researcher_graph_ainvoke configuration <$> steps state.

Definition conduct_research `{External}
    (configuration : AgentConfiguration) (state : AgentState)
  : result AgentUpdate :=
  let tasks := research_tasks configuration state in
  results ← gather tasks;
  let documents := concat (r_documents <$> results) in
  Ok (mkAgentUpdate None None None (Some (NList (IDoc <$> documents)))).

Definition newline : string := String (ascii_of_nat 10) EmptyString.

(** The context [respond] puts between [<docs>] and [</docs>]. *)
Definition respond_context (state : AgentState) : string :=
  String.concat (newline +:+ newline) (page_content <$> documents state).

(** The messages [respond] sends to the model. *)
Definition respond_messages (configuration : AgentConfiguration)
    (state : AgentState) : list message :=
  let system_prompt := response_system_prompt configuration in
  let context := respond_context state in
  [ system system_prompt;
    system ("<docs>" +:+ context +:+ "</docs>") ] ++ messages state.

Definition respond `{External}
    (configuration : AgentConfiguration) (state : AgentState)
  : result AgentUpdate :=
  let response := chat_model (respond_messages configuration state) in
  Ok (mkAgentUpdate (Some [response]) None None None).

Definition route_query (state : AgentState) : result string :=
  let mapping : gmap string string :=
    {[ "more-info" := "ask_for_more_info";
       "general" := "respond_to_general_query";
       "rag-research" := "create_research_plan" ]} in
  match mapping !! type (router state) with
  | Some node => Ok node
  | None => Raise (KeyError (type (router state)))
  end.

Definition check_finished (state : AgentState) : result string :=
  Ok "respond".

(** *** The graph the builder describes *)

Definition START : string := "__start__".

Definition END : string := "__end__".

Inductive edge : Type :=
| Edge (src dst : string)
| ConditionalEdges (src : string) (path : AgentState → result string).

Definition edge_src (e : edge) : string :=
  match e with
  | Edge src _ => src
  | ConditionalEdges src _ => src
  end.

Definition node_fn `{External} : Type :=
  AgentConfiguration → AgentState → result AgentUpdate.

Record StateGraph `{External} : Type := mkStateGraph {
  nodes : list (string * node_fn);
  edges : list edge
}.

(** Lines 231 to 245. *)
Definition builder `{External} : StateGraph :=
  {| nodes :=
       [ ("analyze_and_route_query", analyze_and_route_query);
         ("ask_for_more_info", ask_for_more_info);
         ("respond_to_general_query", respond_to_general_query);
         ("create_research_plan", create_research_plan);
         ("conduct_research", conduct_research);
         ("respond", respond) ];
     edges :=
       [ Edge START "analyze_and_route_query";
         ConditionalEdges "analyze_and_route_query" route_query;
         Edge "create_research_plan" "conduct_research";
         ConditionalEdges "conduct_research" check_finished;
         Edge "ask_for_more_info" END;
         Edge "respond_to_general_query" END;
         Edge "respond" END ] |}.

(** *** Running a graph

    The host framework runs the node, merges its update into the state
    and follows the edge that leaves the node, a conditional edge being
    evaluated on the merged state.  The graphs of this repository give
    every node one outgoing edge.  A run that takes more steps than the
    recursion limit is aborted. *)

Definition recursion_limit : nat := 25.

Definition successor `{External} (g : StateGraph) (node : string)
    (state : AgentState) : result string :=
  match List.find (λ e, bool_decide (edge_src e = node)) (edges g) with
  | Some (Edge _ dst) => Ok dst
  | Some (ConditionalEdges _ path) => path state
  | None => Ok END
  end.

Definition lookup_node `{External} (g : StateGraph) (node : string)
  : option node_fn :=
  snd <$> List.find (λ nf, bool_decide (nf.1 = node)) (nodes g).

(** The run from [node] on: the nodes visited, in order, and the final
    state. *)
Fixpoint run_from `{External} (fuel : nat) (g : StateGraph)
    (configuration : AgentConfiguration) (node : string) (state : AgentState)
    (trace : list string) : result (list string * AgentState) :=
  if decide (node = END) then Ok (trace, state)
  else
    match fuel with
    | O => Raise (OtherError "GraphRecursionError")
    | S fuel' =>
        match lookup_node g node with
        | None => Raise (ValueError ("unknown node " +:+ node))
        | Some f =>
            update ← f configuration state;
            state' ← apply_update state update;
            next ← successor g node state';
            run_from fuel' g configuration next state' (trace ++ [node])
        end
    end.

(** One turn of a compiled graph: the state of the thread (the defaults
    of [AgentState] on a new thread, the checkpoint otherwise) receives
    the input messages and the run starts at the successor of [START]. *)
Definition default_AgentState : AgentState :=
  mkAgentState [] (mkRouter "" "general") [] [].

Definition ainvoke `{External} (g : StateGraph)
    (configuration : AgentConfiguration) (checkpoint : option AgentState)
    (input : InputState) : result (list string * AgentState) :=
  let thread := default default_AgentState checkpoint in
  state ← apply_update thread
            (mkAgentUpdate (Some (in_messages input)) None None None);
  first ← successor g START state;
  run_from recursion_limit g configuration first state [].

Definition main_graph `{External} : StateGraph := builder.

(** ** The index graph ([graphs/index_graph.py]) *)

(** The builtin [open] on a configuration attribute. *)
Definition open_json `{External} (file : pyobj) : result file_outcome :=
  match file with
  | PStr path => Ok (read_json_file path)
  | PDict _ =>
      Raise (TypeError "expected str, bytes or os.PathLike object, not dict")
  | PField _ =>
      Raise (TypeError "expected str, bytes or os.PathLike object, not Field")
  end.

(** [index_docs] on the contents [store] of the vector store: the
    contents afterwards and the update returned. *)
Definition index_docs `{External} (state : IndexState)
    (config : option RunnableConfig) (store : list Document)
  : result (list Document * new_input) :=
  match config with
  | None => Raise (ValueError "运行 index_docs 需要配置。")
  | Some config =>
      if config_is_empty config then
        Raise (ValueError "运行 index_docs 需要配置。")
      else
        let configuration := IndexConfiguration_from_runnable_config config in
        let docs := i_documents state in
        docs ←
          (if decide (docs = []) then
             outcome ← open_json (IndexConfiguration_docs_file configuration);
             match outcome with
             | Loaded serialized_docs => reduce_docs (Some []) serialized_docs
             | FileNotFoundError => Ok []
             | JSONDecodeError => Ok []
             end
           else Ok docs);
        store ←
          (if decide (docs ≠ []) then aadd_documents docs store
           else Ok store);
        Ok (store, NStr "delete")
  end.

(** ** The Milvus adapter ([crud/milvus_crud_manager.py]) *)

Record MilvusCRUDManager : Type := mkMilvusCRUDManager {
  configuration : BaseConfiguration;
  _vector_store : option (list Document)
}.

(** [delete_documents] on the manager and the Milvus collection: what
    both are afterwards, and the value returned or the exception. *)
Definition delete_documents (self : MilvusCRUDManager) (ids : list string)
    (collection : list Document)
  : MilvusCRUDManager * list Document * result bool :=
  (self, collection,
   Raise (NotImplementedError
     ("Delete operation by IDs not implemented for "
        +:+ format_pyobj (retriever_provider (configuration self))))).

(** ** Notions the properties are stated with *)

(** The ids of the documents of a collection, as line 113 reads them. *)
Definition ids_of (docs : list Document) : list value :=
  metadata_get_uuid <$> docs.

(** The id the loop derives for an item; an item of another shape has
    none. *)
Definition item_id (it : item) : option value :=
  match it with
  | IStr s => Some (VStr (_generate_uuid s))
  | IDict d => Some (dict_item_id d)
  | IDoc doc => Some (doc_item_id_new doc).1
  | IOther => None
  end.

(** The hash of the content of an item. *)
Definition content_hash (it : item) : option value :=
  match it with
  | IStr s => Some (VStr (_generate_uuid s))
  | IDict d => Some (VStr (_generate_uuid (default "" (d_page_content d))))
  | IDoc doc => Some (VStr (_generate_uuid (page_content doc)))
  | IOther => None
  end.

Definition is_dict_or_doc (it : item) : Prop :=
  match it with
  | IDict _ | IDoc _ => True
  | IStr _ | IOther => False
  end.

(** A [dict] item can be turned into a [Document]. *)
Definition has_page_content (it : item) : Prop :=
  match it with
  | IDict d => is_Some (d_page_content d)
  | _ => True
  end.

Definition dicts_have_page_content (new : new_input) : Prop :=
  match new with
  | NList items => Forall has_page_content items
  | _ => True
  end.

(** The ids of [xs] that are neither in [seen] nor earlier in [xs], in
    the order of [xs]. *)
Fixpoint fresh_ids (xs : list value) (seen : gset value) : list value :=
  match xs with
  | [] => []
  | x :: rest =>
      if decide (x ∉ seen) then x :: fresh_ids rest ({[x]} ∪ seen)
      else fresh_ids rest seen
  end.

(** The [uuid] an item brings along in its own metadata ([None] when
    it brings none). *)
Definition own_uuid (it : item) : value :=
  match it with
  | IDict d => default VNone (default ∅ (d_metadata d) !! "uuid")
  | IDoc doc => default VNone (metadata doc !! "uuid")
  | _ => VNone
  end.

(** The document the loop appends for an item when its id is new. *)
Definition new_item_of (it : item) : option Document :=
  match it with
  | IStr s => Some (mkDocument s {["uuid" := VStr (_generate_uuid s)]})
  | IDict d =>
      match d_page_content d with
      | Some pc =>
          Some (mkDocument pc
                  (<["uuid" := dict_item_id d]> (default ∅ (d_metadata d))))
      | None => None
      end
  | IDoc doc => Some (doc_item_id_new doc).2
  | IOther => None
  end.

(** Re-indexing as the specification words it: reducing [items] into
    the empty collection and then once more leaves a collection without
    duplicate ids whose size is the number of distinct content hashes. *)
Definition reindexing_counts_content_hashes (items : list item) : Prop :=
  ∃ r1 r2,
    reduce_docs (Some []) (NList items) = Ok r1
    ∧ reduce_docs (Some r1) (NList items) = Ok r2
    ∧ NoDup (ids_of r2)
    ∧ length r2 = size (list_to_set (omap content_hash items) : gset value).

(** The id under which a retrieved document is merged, and the
    document that is merged for it. *)
Definition doc_id (doc : Document) : value := (doc_item_id_new doc).1.

Definition with_uuid (doc : Document) : Document := (doc_item_id_new doc).2.

(** The zero-step case of a research turn as the specification words
    it: the turn reaches [respond] once and the response is generated
    from the empty context. *)
Definition zero_step_turn_answers_from_empty_context `{External}
    (configuration : AgentConfiguration) (checkpoint : option AgentState)
    (input : InputState) : Prop :=
  let thread := default default_AgentState checkpoint in
  let msgs := messages thread ++ in_messages input in
  type (router_model ([system (router_system_prompt configuration)] ++ msgs))
  = "rag-research" →
  plan_model ([system (research_plan_system_prompt configuration)] ++ msgs)
  = [] →
  ∃ trace final,
    ainvoke main_graph configuration checkpoint input = Ok (trace, final)
    ∧ count_occ string_dec trace "respond" = 1%nat
    ∧ last (messages final)
      = Some (chat_model
                ([ system (response_system_prompt configuration);
                   system "<docs></docs>" ] ++ msgs)).

(** ** Collaborators for concrete runs

    A router that always asks for research, a planner that returns the
    given plan, two queries per step, a retriever that returns the query
    and one document shared by all queries, a model that answers with
    the contents of its messages, and a file system without files. *)
Definition sample_external (plan : list string) : External :=
  {| router_model := λ _, mkRouter "needs the documentation" "rag-research";
     plan_model := λ _, plan;
     queries_model := λ _, ["q1"; "q2"];
     chat_model := λ msgs, mkMessage "ai" (String.concat "|" (content <$> msgs));
     retriever_ainvoke := λ q,
       [mkDocument q ∅; mkDocument "shared" {["uuid" := VStr "s"]}];
     aadd_documents := λ docs store, Ok (store ++ docs);
     read_json_file := λ _, FileNotFoundError |}.

Definition sample_configuration : AgentConfiguration :=
  {| llm_model := "ollama/qwen3:4b";
     router_system_prompt := "route";
     more_info_system_prompt := "ask";
     general_system_prompt := "general";
     research_plan_system_prompt := "plan";
     generate_queries_system_prompt := "queries";
     response_system_prompt := "answer" |}.

(** ** Notions for further properties of the reducer *)

(** A lower-case hexadecimal digit. *)
Definition is_hex_digit (c : ascii) : bool :=
  let n := N_of_ascii c in
  ((48 <=? n)%N && (n <=? 57)%N) || ((97 <=? n)%N && (n <=? 102)%N).

Fixpoint string_forall (P : ascii → bool) (s : string) : bool :=
  match s with
  | EmptyString => true
  | String c rest => P c && string_forall P rest
  end.

(** The positions of the hyphens in the text of a UUID. *)
Definition is_hyphen_position (i : nat) : bool :=
  (i =? 8)%nat || (i =? 13)%nat || (i =? 18)%nat || (i =? 23)%nat.

(** An item one of the three branches of the loop matches. *)
Definition recognised (it : item) : bool :=
  match it with
  | IOther => false
  | _ => true
  end.

(** A collection and a batch for concrete runs of the reducer. *)
Definition sample_existing : list Document :=
  [mkDocument "A" {["uuid" := VInt 1]}].

Definition sample_batch : list item :=
  [ IDict (mkDict (Some "A") (Some {["uuid" := VInt 1]}));
    IDoc (mkDocument "B" ∅);
    IOther;
    IDict (mkDict (Some "B") None);
    IDoc (mkDocument "C" {["uuid" := VStr "c"; "source" := VStr "web"]}) ].

(** ** Notions for further properties of the graphs *)

(** The three classifications [Router] declares. *)
Definition router_types : list string := ["more-info"; "rag-research"; "general"].

(** A configuration with another [general_system_prompt]. *)
Definition with_general_system_prompt (configuration : AgentConfiguration)
    (prompt : string) : AgentConfiguration :=
  {| llm_model := llm_model configuration;
     router_system_prompt := router_system_prompt configuration;
     more_info_system_prompt := more_info_system_prompt configuration;
     general_system_prompt := prompt;
     research_plan_system_prompt := research_plan_system_prompt configuration;
     generate_queries_system_prompt :=
       generate_queries_system_prompt configuration;
     response_system_prompt := response_system_prompt configuration |}.

(** The collaborators of [sample_external] with a router that returns
    the given classification. *)
Definition sample_external_routing (tag : string) : External :=
  {| router_model := λ _, mkRouter "because" tag;
     plan_model := λ _, ["step"];
     queries_model := λ _, ["q1"; "q2"];
     chat_model := λ msgs, mkMessage "ai" (String.concat "|" (content <$> msgs));
     retriever_ainvoke := λ q,
       [mkDocument q ∅; mkDocument "shared" {["uuid" := VStr "s"]}];
     aadd_documents := λ docs store, Ok (store ++ docs);
     read_json_file := λ _, FileNotFoundError |}.

(** ** Further code: [BaseConfiguration.from_runnable_config] *)

(** Lines 53 to 68 of [shared/configuration_manager.py] for the class
    [BaseConfiguration] itself, as [RetrieverManager] calls it.
    [ensure_config] is a function of [langchain_core]: it returns the
    configuration the call runs under, built from the argument and from
    the configuration of the enclosing run.  It is taken as an
    argument. *)
Definition BaseConfiguration_from_runnable_config
    (ensure_config : option RunnableConfig → RunnableConfig)
    (config : option RunnableConfig) : BaseConfiguration :=
  let config := ensure_config config in
  let configurable : gmap string pyobj :=
    match configurable config with
    | Some c => if decide (c = ∅) then ∅ else c
    | None => ∅
    end in
  let _fields := BaseConfiguration_fields in
  BaseConfiguration_init
    (filter (λ kv, kv.1 ∈ _fields) configurable).

(** ** Further code: names of the form [provider/model] *)

(** [sep in s], for a separator of one character. *)
Fixpoint contains_char (sep : ascii) (s : string) : bool :=
  match s with
  | EmptyString => false
  | String c rest => Ascii.eqb c sep || contains_char sep rest
  end.

(** [s.split(sep, maxsplit=1)] for a separator of one character:
    [None] when the separator does not occur in [s] (the list returned
    has the one element [s]), and otherwise the text before the first
    occurrence and the text after it. *)
Fixpoint split_once (sep : ascii) (s : string) : option (string * string) :=
  match s with
  | EmptyString => None
  | String c rest =>
      if Ascii.eqb c sep then Some (EmptyString, rest)
      else
        match split_once sep rest with
        | Some (before, after) => Some (String c before, after)
        | None => None
        end
  end.

(** *** [shared/model_manager.py] *)

(** The chat model [init_chat_model(model_name, model_provider=provider)]
    builds, kept as the arguments it is built from. *)
Record BaseChatModel : Type := init_chat_model {
  chat_model_name : string;
  chat_model_provider : string
}.

Definition load_chat_model (fully_specified_name : string) : BaseChatModel :=
  let '(provider, model_name) :=
    match split_once "/" fully_specified_name with
    | Some (provider, model_name) => (provider, model_name)
    | None => ("", fully_specified_name)
    end in
  let model := init_chat_model model_name provider in
  model.

(** [ModelManager.get_model] on the dictionary [_models]: the
    dictionary afterwards, the model returned and the line logged. *)
Definition get_model (_models : gmap string BaseChatModel)
    (fully_specified_name : string)
  : gmap string BaseChatModel * BaseChatModel * string :=
  match _models !! fully_specified_name with
  | None =>
      let model := load_chat_model fully_specified_name in
      (<[fully_specified_name := model]> _models, model,
       "Loading model: " +:+ fully_specified_name)
  | Some model =>
      (_models, model, "Using cached model: " +:+ fully_specified_name)
  end.

(** [ModelManager.clear_cache] *)
Definition clear_cache (_models : gmap string BaseChatModel)
  : gmap string BaseChatModel := ∅.

(** The calls a program makes on the manager. *)
Inductive manager_call : Type :=
| GetModel (fully_specified_name : string)
| ClearCache.

Definition do_call (_models : gmap string BaseChatModel) (c : manager_call)
  : gmap string BaseChatModel :=
  match c with
  | GetModel name => (get_model _models name).1.1
  | ClearCache => clear_cache _models
  end.

(** The dictionary after a sequence of calls on a new manager. *)
Definition after_calls (calls : list manager_call)
  : gmap string BaseChatModel :=
  foldl do_call ∅ calls.

(** *** [shared/text_encoder.py] *)

(** The embeddings the two supported providers build, kept as the
    arguments they are built from. *)
Inductive Embeddings : Type :=
| OpenAIEmbeddings (model : string)
| OllamaEmbeddings (model base_url : string).

Definition make_text_encoder (model : string) : result Embeddings :=
  match split_once "/" model with
  | None => Raise (ValueError "not enough values to unpack (expected 2, got 1)")
  | Some (provider, model) =>
      if decide (provider = "openai") then Ok (OpenAIEmbeddings model)
      else if decide (provider = "ollama") then
        Ok (OllamaEmbeddings model "http://localhost:11434")
      else Raise (ValueError ("不支持的嵌入提供者: " +:+ provider))
  end.

(** *** [MongoDBCRUDManager._parse_namespace] ([crud/mongodb_crud_manager.py]) *)

Definition _parse_namespace (environ : gmap string string)
  : string * string :=
  let namespace :=
    default "langgraph_retrieval_agent.default"
      (environ !! "MONGODB_NAMESPACE") in
  match split_once "." namespace with
  | Some (db_name, collection_name) => (db_name, collection_name)
  | None => ("langgraph_retrieval_agent", "default")
  end.

(** ** The researcher graph under a schedule, and traced runs *)

(** The run of the researcher graph when the retrieval tasks complete
    in the order [schedule] puts them in: the writes reach the
    [documents] channel in that order. *)
Definition researcher_graph_ainvoke_scheduled `{External}
    (configuration : AgentConfiguration) (step : string)
    (schedule : list Send → list Send) : result ResearcherState :=
  let state := mkResearcherState step [] [] in
  let state :=
    mkResearcherState (question state) (generate_queries configuration state)
      (r_documents state) in
  writes ← gather (run_send <$> schedule (retrieve_in_parallel state));
  docs ← merge_writes (r_documents state) writes;
  Ok (mkResearcherState (question state) (queries state) docs).

(** What the task of a [Send] to [retrieve_documents] writes. *)
Definition send_output `{External} (s : Send) : list Document :=
  match s with
  | mkSend _ arg => retrieve_documents arg
  end.

Definition send_node (s : Send) : string :=
  match s with
  | mkSend node _ => node
  end.

(** The fan-out as the specification words it: whatever the order in
    which the tasks complete, the merged documents of the step are the
    union of the outputs of the tasks. *)
Definition fan_out_merges_union_of_outputs `{External}
    (configuration : AgentConfiguration) (step : string) : Prop :=
  let qs := generate_queries configuration (mkResearcherState step [] []) in
  let tasks := retrieve_in_parallel (mkResearcherState step qs []) in
  let outputs := retriever_ainvoke <$> qs in
  ∀ schedule : list Send → list Send,
    schedule tasks ≡ₚ tasks →
    ∃ merged,
      researcher_graph_ainvoke_scheduled configuration step schedule
      = Ok (mkResearcherState step qs merged)
      ∧ ∀ d, d ∈ merged ↔ d ∈ concat outputs.

(** Collaborators whose retriever returns, for every query, one
    document with the query as content, all under the same [uuid]. *)
Definition conflicting_external : External :=
  {| router_model := λ _, mkRouter "needs the documentation" "rag-research";
     plan_model := λ _, ["step"];
     queries_model := λ _, ["q1"; "q2"];
     chat_model := λ msgs, mkMessage "ai" (String.concat "|" (content <$> msgs));
     retriever_ainvoke := λ q, [mkDocument q {["uuid" := VStr "1"]}];
     aadd_documents := λ docs store, Ok (store ++ docs);
     read_json_file := λ _, FileNotFoundError |}.

(** [run_from] with the nodes it has run given also when the run is
    aborted: a node counts as run as soon as its function is called. *)
Fixpoint run_from_traced `{External} (fuel : nat) (g : StateGraph)
    (configuration : AgentConfiguration) (node : string) (state : AgentState)
    (trace : list string) : list string * result AgentState :=
  if decide (node = END) then (trace, Ok state)
  else
    match fuel with
    | O => (trace, Raise (OtherError "GraphRecursionError"))
    | S fuel' =>
        match lookup_node g node with
        | None => (trace, Raise (ValueError ("unknown node " +:+ node)))
        | Some f =>
            match f configuration state with
            | Raise e => (trace ++ [node], Raise e)
            | Ok update =>
                match apply_update state update with
                | Raise e => (trace ++ [node], Raise e)
                | Ok state' =>
                    match successor g node state' with
                    | Raise e => (trace ++ [node], Raise e)
                    | Ok next =>
                        run_from_traced fuel' g configuration next state'
                          (trace ++ [node])
                    end
                end
            end
        end
    end.

(** [ainvoke] with the nodes it has run given also when the turn is
    aborted. *)
Definition ainvoke_traced `{External} (g : StateGraph)
    (configuration : AgentConfiguration) (checkpoint : option AgentState)
    (input : InputState) : list string * result AgentState :=
  let thread := default default_AgentState checkpoint in
  match apply_update thread
          (mkAgentUpdate (Some (in_messages input)) None None None) with
  | Raise e => ([], Raise e)
  | Ok state =>
      match successor g START state with
      | Raise e => ([], Raise e)
      | Ok first => run_from_traced recursion_limit g configuration first state []
      end
  end.

(** What [ainvoke] returns, read off a traced run. *)
Definition untraced (r : list string * result AgentState)
  : result (list string * AgentState) :=
  match r with
  | (trace, Ok state) => Ok (trace, state)
  | (_, Raise e) => Raise e
  end.

(** * Properties *)

(** ** [_generate_uuid] on known digests *)

Example generate_uuid_empty :
  _generate_uuid "" = "d41d8cd9-8f00-b204-e980-0998ecf8427e".
Proof. vm_compute. reflexivity. Qed.

Example generate_uuid_a :
  _generate_uuid "a" = "0cc175b9-c0f1-b6a8-31c3-99e269772661".
Proof. vm_compute. reflexivity. Qed.

Example generate_uuid_two_blocks :
  _generate_uuid "xxxxxxxxxxxxxxxxxxxxxxxxxxxxxxxxxxxxxxxxxxxxxxxxxxxxxxxxxxxx"
  = "1198000c-1196-8f93-68e0-2d6da57ec147".
Proof. vm_compute. reflexivity. Qed.

(** ** The reducer *)

(** The batch example of the specification: the id [1] is not
    duplicated and ["B"] is appended under the id derived for it. *)
Example reduce_docs_batch_example :
  reduce_docs (Some [mkDocument "A" {["uuid" := VInt 1]}])
    (NList [ IDict (mkDict (Some "A") (Some {["uuid" := VInt 1]}));
             IDict (mkDict (Some "B") None) ])
  = Ok [ mkDocument "A" {["uuid" := VInt 1]};
         mkDocument "B"
           {["uuid" := VStr "9d5ed678-fe57-bcca-6101-40957afab571"]} ].
Proof. vm_compute. reflexivity. Qed.

Lemma reduce_items_extends items :
  ∀ ids new_list r,
    reduce_items items ids new_list = Ok r → new_list `prefix_of` r.
Proof.
  induction items as [|it items IH]; intros ids new_list r; simpl.
  - intros [= <-]. done.
  - destruct it as [s|d|doc|].
    + intros Hr. apply IH in Hr.
      etrans; [apply prefix_app_r; reflexivity | exact Hr].
    + case_decide; [|by apply IH].
      destruct (d_page_content d) as [pc|]; simpl; [|done].
      intros Hr. apply IH in Hr.
      etrans; [apply prefix_app_r; reflexivity | exact Hr].
    + destruct (doc_item_id_new doc) as [i new_item].
      case_decide; [|by apply IH].
      intros Hr. apply IH in Hr.
      etrans; [apply prefix_app_r; reflexivity | exact Hr].
    + by apply IH.
Qed.

Lemma reduce_items_total items :
  Forall has_page_content items →
  ∀ ids new_list, ∃ r, reduce_items items ids new_list = Ok r.
Proof.
  induction 1 as [|it items Hit _ IH]; intros ids new_list; simpl.
  - by eexists.
  - destruct it as [s|d|doc|]; try apply IH.
    + case_decide; [|apply IH].
      destruct Hit as [pc ->]. simpl. apply IH.
    + destruct (doc_item_id_new doc) as [i new_item].
      case_decide; apply IH.
Qed.

(** C3: the delete signal empties the collection, whatever it held. *)
Theorem reduce_docs_delete_resets (existing : option (list Document)) :
  reduce_docs existing (NStr "delete") = Ok [].
Proof. unfold reduce_docs. by rewrite decide_True. Qed.

(** C4: a single string other than ["delete"] is appended to the
    existing documents as one new [Document] whose [uuid] is derived
    from its content; nothing is dropped and the string is not compared
    with the ids already present. *)
Theorem reduce_docs_scalar_string_appends
    (existing : option (list Document)) (s : string) :
  s ≠ "delete" →
  ∃ r,
    reduce_docs existing (NStr s) = Ok r
    ∧ r = default [] existing
            ++ [mkDocument s {["uuid" := VStr (_generate_uuid s)]}]
    ∧ length r = (length (default [] existing) + 1)%nat.
Proof.
  intros Hs. eexists. split; [|split; [reflexivity|]].
  - unfold reduce_docs. rewrite decide_False; [reflexivity | congruence].
  - by rewrite length_app.
Qed.

(** The string is appended although a document with its id is there. *)
Lemma reduce_docs_scalar_string_appends_witness :
  "new text" ≠ "delete"
  ∧ ∃ r,
      reduce_docs
        (Some [mkDocument "new text"
                 {["uuid" := VStr (_generate_uuid "new text")]}])
        (NStr "new text") = Ok r
      ∧ r = default []
              (Some [mkDocument "new text"
                       {["uuid" := VStr (_generate_uuid "new text")]}])
            ++ [mkDocument "new text"
                  {["uuid" := VStr (_generate_uuid "new text")]}]
      ∧ length r =
          (length (default []
                     (Some [mkDocument "new text"
                              {["uuid" := VStr (_generate_uuid "new text")]}]))
           + 1)%nat.
Proof.
  split; [discriminate|].
  apply (reduce_docs_scalar_string_appends
           (Some [mkDocument "new text"
                    {["uuid" := VStr (_generate_uuid "new text")]}])
           "new text").
  discriminate.
Defined.

(** C10: a merge keeps the existing documents, unchanged and in their
    order, as a prefix of what it returns; and it does return whenever
    every [dict] of the input carries a [page_content]. *)
Theorem reduce_docs_keeps_existing_prefix
    (existing : option (list Document)) (new : new_input) :
  new ≠ NStr "delete" →
  (∀ r, reduce_docs existing new = Ok r → default [] existing `prefix_of` r)
  ∧ (dicts_have_page_content new → ∃ r, reduce_docs existing new = Ok r).
Proof.
  intros Hnew. unfold reduce_docs. rewrite decide_False by done.
  destruct new as [s|items|]; simpl.
  - split; [|by eexists]. intros r [= <-]. by apply prefix_app_r.
  - split.
    + intros r.
      destruct (reduce_items items _ []) as [new_list|e]; simpl; [|done].
      intros [= <-]. by apply prefix_app_r.
    + intros Hitems.
      destruct (reduce_items_total items Hitems
                  (list_to_set (metadata_get_uuid <$> default [] existing)) [])
        as [new_list ->].
      simpl. by eexists.
  - split; [|by eexists]. intros r [= <-]. by apply prefix_app_r.
Qed.

Lemma reduce_docs_keeps_existing_prefix_witness :
  NList [IDict (mkDict (Some "B") None); IStr "C"] ≠ NStr "delete"
  ∧ (∀ r,
       reduce_docs (Some [mkDocument "A" {["uuid" := VInt 1]}])
         (NList [IDict (mkDict (Some "B") None); IStr "C"]) = Ok r →
       default [] (Some [mkDocument "A" {["uuid" := VInt 1]}]) `prefix_of` r)
  ∧ (dicts_have_page_content
       (NList [IDict (mkDict (Some "B") None); IStr "C"]) →
     ∃ r,
       reduce_docs (Some [mkDocument "A" {["uuid" := VInt 1]}])
         (NList [IDict (mkDict (Some "B") None); IStr "C"]) = Ok r).
Proof.
  split; [discriminate|].
  apply (reduce_docs_keeps_existing_prefix
           (Some [mkDocument "A" {["uuid" := VInt 1]}])
           (NList [IDict (mkDict (Some "B") None); IStr "C"])).
  discriminate.
Defined.

(** C1, on the code: two equal strings in one batch are both appended,
    under the same [uuid], and so is a string whose [uuid] an existing
    document carries.  The branch of the loop for strings records the
    id and never tests it. *)
Theorem reduce_docs_string_items_not_deduplicated :
  let doc := mkDocument "a"
               {["uuid" := VStr "0cc175b9-c0f1-b6a8-31c3-99e269772661"]} in
  reduce_docs (Some []) (NList [IStr "a"; IStr "a"]) = Ok [doc; doc]
  ∧ reduce_docs (Some [doc]) (NList [IStr "a"]) = Ok [doc; doc]
  ∧ reduce_docs (Some [])
      (NList [IDict (mkDict (Some "a") None); IDict (mkDict (Some "a") None)])
    = Ok [doc].
Proof. vm_compute. repeat split; reflexivity. Qed.

(** *** The ids a batch adds *)

Lemma fresh_ids_not_seen xs :
  ∀ seen x, x ∈ fresh_ids xs seen → x ∉ seen.
Proof.
  induction xs as [|y xs IH]; intros seen x; simpl.
  - by intros ?%not_elem_of_nil.
  - case_decide as Hy.
    + intros [->|Hx]%elem_of_cons; [done|].
      apply IH in Hx. set_solver.
    + apply IH.
Qed.

Lemma fresh_ids_NoDup xs : ∀ seen, NoDup (fresh_ids xs seen).
Proof.
  induction xs as [|y xs IH]; intros seen; simpl.
  - constructor.
  - case_decide; [|apply IH].
    apply NoDup_cons. split; [|apply IH].
    intros Hy%fresh_ids_not_seen. set_solver.
Qed.

Lemma fresh_ids_set xs :
  ∀ seen : gset value,
    list_to_set (fresh_ids xs seen) ∪ seen = list_to_set xs ∪ seen.
Proof.
  induction xs as [|y xs IH]; intros seen; simpl.
  - done.
  - case_decide as Hy.
    + rewrite list_to_set_cons.
      apply set_eq. intros x.
      pose proof (proj1 (set_eq _ _) (IH ({[y]} ∪ seen)) x) as Hx.
      clear IH. set_unfold. tauto.
    + apply set_eq. intros x.
      pose proof (proj1 (set_eq _ _) (IH seen) x) as Hx.
      clear IH. set_unfold. intuition congruence.
Qed.

Lemma fresh_ids_all_seen xs (seen : gset value) :
  (∀ x, x ∈ xs → x ∈ seen) → fresh_ids xs seen = [].
Proof.
  induction xs as [|y xs IH]; intros Hxs; simpl; [done|].
  rewrite decide_False.
  - apply IH. intros x Hx. apply Hxs. by right.
  - intros Hy. apply Hy, Hxs. by left.
Qed.

Lemma fresh_ids_set_empty xs :
  list_to_set (fresh_ids xs ∅) =@{gset value} list_to_set xs.
Proof.
  pose proof (fresh_ids_set xs ∅) as Hset.
  by rewrite !(right_id_L ∅ (∪)) in Hset.
Qed.

Lemma fresh_ids_length xs :
  length (fresh_ids xs ∅) = size (list_to_set xs : gset value).
Proof.
  rewrite <- (size_list_to_set (C := gset value)) by apply fresh_ids_NoDup.
  by rewrite fresh_ids_set_empty.
Qed.

(** *** What the loop appends *)

Lemma doc_item_id_new_uuid doc :
  metadata_get_uuid (doc_item_id_new doc).2 = (doc_item_id_new doc).1.
Proof.
  unfold doc_item_id_new, metadata_get_uuid.
  destruct (metadata doc !! "uuid") as [v|] eqn:Hv; simpl.
  - destruct (truthy v); simpl; [by rewrite Hv|by rewrite lookup_insert_eq].
  - by rewrite lookup_insert_eq.
Qed.

Lemma new_item_of_uuid it d :
  new_item_of it = Some d → Some (metadata_get_uuid d) = item_id it.
Proof.
  destruct it as [s|di|doc|]; simpl; [| | |done].
  - intros [= <-]. unfold metadata_get_uuid. simpl.
    by rewrite lookup_singleton_eq.
  - destruct (d_page_content di); [|done]. intros [= <-].
    unfold metadata_get_uuid. simpl. by rewrite lookup_insert_eq.
  - intros [= <-]. by rewrite doc_item_id_new_uuid.
Qed.

(** The documents appended for the rest of a batch come from items of
    the whole batch. *)
Local Ltac later_items Hsrc :=
  eapply Forall_impl; [exact Hsrc|];
  intros ? (it & ? & ?); exists it; split; [by right|done].

(** On a batch of [dict] and [Document] items the loop appends, for
    the ids that are neither known nor met earlier in the batch, the
    document of the first item that carries the id. *)
Lemma reduce_items_dict_doc items :
  Forall is_dict_or_doc items →
  Forall has_page_content items →
  ∀ ids new_list, ∃ added,
    reduce_items items ids new_list = Ok (new_list ++ added)
    ∧ ids_of added = fresh_ids (omap item_id items) ids
    ∧ Forall (λ d, ∃ it, it ∈ items ∧ new_item_of it = Some d) added.
Proof.
  induction items as [|it items IH]; intros Hshape Hpc ids new_list.
  { exists []. simpl. by rewrite app_nil_r. }
  apply Forall_cons in Hshape as [Hit Hshape].
  apply Forall_cons in Hpc as [Hpcit Hpc].
  specialize (IH Hshape Hpc).
  destruct it as [s|d|doc|]; simpl in *; try done.
  - destruct Hpcit as [pc Hpcd].
    case_decide as Hid.
    + rewrite Hpcd. simpl.
      destruct (IH ({[dict_item_id d]} ∪ ids)
                   (new_list ++ [mkDocument pc
                      (<["uuid" := dict_item_id d]> (default ∅ (d_metadata d)))]))
        as (added & -> & Hids & Hsrc).
      eexists (_ :: added). split; [by rewrite <- app_assoc|]. split.
      * simpl. rewrite Hids. f_equal.
        unfold metadata_get_uuid. simpl. by rewrite lookup_insert_eq.
      * constructor.
        -- exists (IDict d). split; [by left|]. simpl. by rewrite Hpcd.
        -- later_items Hsrc.
    + destruct (IH ids new_list) as (added & -> & Hids & Hsrc).
      exists added. split; [done|]. split; [done|].
      later_items Hsrc.
  - pose proof (doc_item_id_new_uuid doc) as Huuid.
    destruct (doc_item_id_new doc) as [i new_item] eqn:Hnew. simpl in *.
    case_decide as Hid.
    + destruct (IH ({[i]} ∪ ids) (new_list ++ [new_item]))
        as (added & -> & Hids & Hsrc).
      eexists (_ :: added). split; [by rewrite <- app_assoc|]. split.
      * simpl. by rewrite Hids, Huuid.
      * constructor.
        -- exists (IDoc doc). split; [by left|]. simpl. by rewrite Hnew.
        -- later_items Hsrc.
    + destruct (IH ids new_list) as (added & -> & Hids & Hsrc).
      exists added. split; [done|]. split; [done|].
      later_items Hsrc.
Qed.

Lemma reduce_docs_dict_doc (existing : list Document) items :
  Forall is_dict_or_doc items →
  Forall has_page_content items →
  ∃ added,
    reduce_docs (Some existing) (NList items) = Ok (existing ++ added)
    ∧ ids_of added
      = fresh_ids (omap item_id items) (list_to_set (ids_of existing))
    ∧ Forall (λ d, ∃ it, it ∈ items ∧ new_item_of it = Some d) added.
Proof.
  intros Hshape Hpc. unfold reduce_docs. rewrite decide_False by done. simpl.
  destruct (reduce_items_dict_doc items Hshape Hpc
              (list_to_set (metadata_get_uuid <$> existing)) [])
    as (added & -> & Hids & Hsrc).
  exists added. done.
Qed.

Lemma item_id_without_own_uuid it :
  truthy (own_uuid it) = false → item_id it = content_hash it.
Proof.
  destruct it as [s|d|doc|]; simpl; try done.
  - unfold dict_item_id, py_or. by intros ->.
  - unfold doc_item_id_new.
    destruct (metadata doc !! "uuid") as [v|]; simpl; [|done].
    by intros ->.
Qed.

(** C2, as the code has it: reducing a list of [dict] and [Document]
    items (every [dict] with a [page_content]) into the empty collection
    and then once more gives the same collection both times, without
    duplicate ids, and with as many documents as the items have distinct
    ids, the id of an item being its own [uuid] when it brings a truthy
    one and the hash of its content otherwise.  When no item brings a
    [uuid], that is the number of distinct content hashes. *)
Theorem reindexing_is_idempotent (items : list item) :
  Forall is_dict_or_doc items →
  Forall has_page_content items →
  ∃ r,
    reduce_docs (Some []) (NList items) = Ok r
    ∧ reduce_docs (Some r) (NList items) = Ok r
    ∧ NoDup (ids_of r)
    ∧ length r = size (list_to_set (omap item_id items) : gset value)
    ∧ (Forall (λ it, truthy (own_uuid it) = false) items →
       length r = size (list_to_set (omap content_hash items) : gset value)).
Proof.
  intros Hshape Hpc.
  destruct (reduce_docs_dict_doc [] items Hshape Hpc)
    as (r & Hfirst & Hids & _).
  simpl in Hfirst, Hids.
  destruct (reduce_docs_dict_doc r items Hshape Hpc)
    as (added & Hsecond & Hids2 & _).
  assert (added = []) as ->.
  { apply (fmap_nil_inv metadata_get_uuid). fold (ids_of added).
    rewrite Hids2. apply fresh_ids_all_seen.
    intros x Hx. rewrite Hids, fresh_ids_set_empty.
    by apply elem_of_list_to_set. }
  rewrite app_nil_r in Hsecond.
  assert (length r = size (list_to_set (omap item_id items) : gset value))
    as Hlen.
  { rewrite <- fresh_ids_length, <- Hids. unfold ids_of.
    by rewrite length_fmap. }
  exists r. repeat split; try done.
  - rewrite Hids. apply fresh_ids_NoDup.
  - intros Hown. rewrite Hlen. do 2 f_equal.
    clear -Hown. induction Hown as [|it items Hit _ IH]; [done|].
    csimpl. by rewrite (item_id_without_own_uuid it Hit), IH.
Qed.

Lemma reindexing_is_idempotent_witness :
  let items :=
    [ IDict (mkDict (Some "A") (Some {["uuid" := VInt 1]}));
      IDoc (mkDocument "B" ∅);
      IDict (mkDict (Some "B") None) ] in
  Forall is_dict_or_doc items
  ∧ Forall has_page_content items
  ∧ ∃ r,
      reduce_docs (Some []) (NList items) = Ok r
      ∧ reduce_docs (Some r) (NList items) = Ok r
      ∧ NoDup (ids_of r)
      ∧ length r = size (list_to_set (omap item_id items) : gset value)
      ∧ (Forall (λ it, truthy (own_uuid it) = false) items →
         length r
         = size (list_to_set (omap content_hash items) : gset value)).
Proof.
  intros items.
  assert (Forall is_dict_or_doc items) as Hshape
    by (repeat constructor).
  assert (Forall has_page_content items) as Hpc
    by (repeat constructor; by eexists).
  split; [exact Hshape|]. split; [exact Hpc|].
  exact (reindexing_is_idempotent items Hshape Hpc).
Defined.

(** C2, as worded, fails: two items with the same content and two
    different [uuid]s of their own give two documents and one content
    hash. *)
Lemma reindexing_counts_content_hashes_fails :
  ¬ reindexing_counts_content_hashes
      [ IDict (mkDict (Some "A") (Some {["uuid" := VStr "x"]}));
        IDict (mkDict (Some "A") (Some {["uuid" := VStr "y"]})) ].
Proof.
  intros (r1 & r2 & H1 & H2 & _ & Hlen).
  vm_compute in H1. injection H1 as <-.
  vm_compute in H2. injection H2 as <-.
  vm_compute in Hlen. discriminate.
Qed.

(** ** The researcher subgraph *)

Lemma run_sends_outputs `{External} (qs : list string) :
  gather (run_send
            <$> ((λ query, mkSend "retrieve_documents" (mkQueryState query))
                   <$> qs))
  = Ok (retriever_ainvoke <$> qs).
Proof.
  induction qs as [|q qs IH]; [done|].
  rewrite !fmap_cons. cbn [gather]. rewrite IH. done.
Qed.

Lemma omap_item_id_docs (w : list Document) :
  omap item_id (IDoc <$> w) = doc_id <$> w.
Proof. induction w as [|d w IH]; [done|]. csimpl. by rewrite IH. Qed.

Lemma concat_Permutation_proper {A} (l k : list (list A)) :
  l ≡ₚ k → concat l ≡ₚ concat k.
Proof.
  induction 1 as [|x l k _ IH|x y l|l k m _ IH1 _ IH2]; simpl.
  - done.
  - by rewrite IH.
  - rewrite !app_assoc. f_equiv. apply Permutation_app_comm.
  - by etrans.
Qed.

(** Folding the writes of the tasks into a collection without duplicate
    ids keeps it so, adds exactly the ids of the written documents, and
    adds only written documents (with their id in the metadata). *)
Lemma merge_writes_ids writes :
  ∀ docs,
    NoDup (ids_of docs) →
    ∃ merged,
      merge_writes docs writes = Ok merged
      ∧ docs `prefix_of` merged
      ∧ NoDup (ids_of merged)
      ∧ list_to_set (ids_of merged)
        =@{gset value}
          list_to_set (ids_of docs) ∪ list_to_set (doc_id <$> concat writes)
      ∧ Forall (λ d, d ∈ docs ∨ ∃ o, o ∈ concat writes ∧ d = with_uuid o)
          merged.
Proof.
  induction writes as [|w writes IH]; intros docs Hnodup; simpl.
  { exists docs. repeat split; try done.
    - by rewrite (right_id_L ∅ (∪)).
    - apply Forall_forall. by left. }
  destruct (reduce_docs_dict_doc docs (IDoc <$> w))
    as (added & -> & Hids & Hsrc).
  { apply Forall_fmap, Forall_true. done. }
  { apply Forall_fmap, Forall_true. done. }
  rewrite omap_item_id_docs in Hids. simpl.
  assert (NoDup (ids_of (docs ++ added))) as Hnodup'.
  { unfold ids_of. rewrite fmap_app. apply NoDup_app.
    split; [done|]. split; [|fold (ids_of added); rewrite Hids;
                              apply fresh_ids_NoDup].
    intros x Hx. fold (ids_of added). rewrite Hids.
    intros Hfresh%fresh_ids_not_seen. apply Hfresh.
    by apply elem_of_list_to_set. }
  destruct (IH (docs ++ added) Hnodup')
    as (merged & -> & Hpre & Hnd & Hset & Hmem).
  exists merged. split; [done|]. split.
  { etrans; [by apply prefix_app_r|exact Hpre]. }
  split; [done|]. split.
  - rewrite Hset. unfold ids_of at 1. rewrite fmap_app, list_to_set_app_L.
    fold (ids_of docs) (ids_of added).
    rewrite Hids, fmap_app, list_to_set_app_L.
    apply set_eq. intros x.
    pose proof (proj1 (set_eq _ _)
                  (fresh_ids_set (doc_id <$> w) (list_to_set (ids_of docs))) x)
      as Hfresh.
    rewrite !elem_of_union in Hfresh. rewrite !elem_of_union. tauto.
  - eapply Forall_impl; [exact Hmem|]. simpl.
    intros d [[Hd|Hd]%elem_of_app|(o & Ho & ->)].
    + by left.
    + right. rewrite Forall_forall in Hsrc.
      destruct (Hsrc d Hd) as (it & Hit & Hnew).
      apply list_elem_of_fmap in Hit as (o & -> & Ho).
      exists o. split; [apply elem_of_app; by left|].
      simpl in Hnew. by injection Hnew as <-.
    + right. exists o. split; [apply elem_of_app; by right|done].
Qed.

Lemma gather_send_outputs `{External} (sends : list Send) :
  Forall (λ s, send_node s = "retrieve_documents") sends →
  gather (run_send <$> sends) = Ok (send_output <$> sends).
Proof.
  induction 1 as [|s sends Hs _ IH]; [done|].
  rewrite !fmap_cons. cbn [gather]. rewrite IH.
  destruct s as [node arg]. simpl in Hs. subst node. done.
Qed.

Lemma retrieve_in_parallel_sends (state : ResearcherState) :
  Forall (λ s, send_node s = "retrieve_documents")
    (retrieve_in_parallel state).
Proof. unfold retrieve_in_parallel. apply Forall_fmap, Forall_true. done. Qed.

Lemma retrieve_in_parallel_outputs `{External} (state : ResearcherState) :
  send_output <$> retrieve_in_parallel state
  = retriever_ainvoke <$> queries state.
Proof.
  unfold retrieve_in_parallel. rewrite <- list_fmap_compose.
  by apply list_fmap_ext.
Qed.

(** C7, as the code has it: for the [N] queries of a step,
    [retrieve_in_parallel] returns [N] [Send]s, the i-th one carrying
    the i-th query to [retrieve_documents], and every task runs its
    query on the retriever.  Whatever the order in which the tasks
    complete, the run of the researcher graph returns a collection
    without duplicate ids whose ids are the union of the ids of all
    outputs: every merged document is a document of the outputs (with
    its id in its metadata), and every document of the outputs has a
    merged document under its id.  Of the output documents that share
    an id, one is merged; when the outputs agree on the document an id
    stands for, the merged documents are exactly the documents of the
    outputs. *)
Theorem researcher_fan_out `{External} (configuration : AgentConfiguration)
    (step : string) (schedule : list Send → list Send) :
  let qs := generate_queries configuration (mkResearcherState step [] []) in
  let state := mkResearcherState step qs [] in
  let tasks := retrieve_in_parallel state in
  let outputs := retriever_ainvoke <$> qs in
  schedule tasks ≡ₚ tasks →
  length tasks = length qs
  ∧ (∀ i, tasks !! i
          = (λ q, mkSend "retrieve_documents" (mkQueryState q)) <$> qs !! i)
  ∧ gather (run_send <$> tasks) = Ok outputs
  ∧ researcher_graph_ainvoke configuration step
    = researcher_graph_ainvoke_scheduled configuration step (λ tasks, tasks)
  ∧ ∃ merged,
      researcher_graph_ainvoke_scheduled configuration step schedule
      = Ok (mkResearcherState step qs merged)
      ∧ NoDup (ids_of merged)
      ∧ list_to_set (ids_of merged)
        =@{gset value} list_to_set (doc_id <$> concat outputs)
      ∧ Forall (λ d, ∃ o, o ∈ concat outputs ∧ d = with_uuid o) merged
      ∧ (∀ o, o ∈ concat outputs →
              ∃ d, d ∈ merged ∧ metadata_get_uuid d = doc_id o)
      ∧ ((∀ o1 o2, o1 ∈ concat outputs → o2 ∈ concat outputs →
                   doc_id o1 = doc_id o2 → with_uuid o1 = with_uuid o2) →
         ∀ d, d ∈ merged ↔ ∃ o, o ∈ concat outputs ∧ d = with_uuid o).
Proof.
  intros qs state tasks outputs Hperm.
  split; [apply length_fmap|]. split; [intros i; apply list_lookup_fmap|].
  split; [apply run_sends_outputs|]. split; [reflexivity|].
  set (completed := send_output <$> schedule tasks).
  assert (completed ≡ₚ outputs) as Hcompleted.
  { unfold completed, outputs. rewrite Hperm.
    unfold tasks. by rewrite retrieve_in_parallel_outputs. }
  assert (gather (run_send <$> schedule tasks) = Ok completed) as Hgather.
  { apply gather_send_outputs. rewrite Hperm.
    apply retrieve_in_parallel_sends. }
  destruct (merge_writes_ids completed [])
    as (merged & Hm & _ & Hnd & Hset & Hmem); [constructor|].
  exists merged.
  split.
  { unfold researcher_graph_ainvoke_scheduled. simpl.
    fold qs. fold state. fold tasks. rewrite Hgather. simpl.
    by rewrite Hm. }
  split; [exact Hnd|].
  pose proof (concat_Permutation_proper _ _ Hcompleted) as Hconcat.
  assert (list_to_set (ids_of merged)
          =@{gset value} list_to_set (doc_id <$> concat outputs)) as Hids.
  { rewrite Hset. simpl. rewrite (left_id_L ∅ (∪)).
    apply list_to_set_perm_L. by rewrite Hconcat. }
  split; [exact Hids|].
  assert (Forall (λ d, ∃ o, o ∈ concat outputs ∧ d = with_uuid o) merged)
    as Hfrom.
  { eapply Forall_impl; [exact Hmem|]. simpl.
    intros d [Hd|(o & Ho & ->)]; [by apply not_elem_of_nil in Hd|].
    exists o. split; [|done]. by rewrite <- Hconcat. }
  split; [exact Hfrom|].
  assert (∀ o, o ∈ concat outputs →
               ∃ d, d ∈ merged ∧ metadata_get_uuid d = doc_id o) as Hall.
  { intros o Ho.
    assert (doc_id o ∈ ids_of merged) as Hid.
    { apply (elem_of_list_to_set (C := gset value)). rewrite Hids.
      apply elem_of_list_to_set, list_elem_of_fmap. by exists o. }
    apply list_elem_of_fmap in Hid as (d & Hd & Hin). by exists d. }
  split; [exact Hall|].
  intros Hsame d. rewrite Forall_forall in Hfrom.
  split; [apply Hfrom|]. intros (o & Ho & ->).
  destruct (Hall o Ho) as (d' & Hin & Hd').
  destruct (Hfrom d' Hin) as (o' & Ho' & ->).
  unfold with_uuid in Hd'. rewrite doc_item_id_new_uuid in Hd'.
  by rewrite (Hsame o o' Ho Ho' (eq_sym Hd')).
Qed.

Lemma researcher_fan_out_witness :
  let E := sample_external [] in
  let schedule : list Send → list Send := reverse in
  let qs :=
    @generate_queries E sample_configuration
      (mkResearcherState "step" [] []) in
  let state := mkResearcherState "step" qs [] in
  let tasks := retrieve_in_parallel state in
  let outputs := @retriever_ainvoke E <$> qs in
  schedule tasks ≡ₚ tasks
  ∧ length tasks = length qs
  ∧ (∀ i, tasks !! i
          = (λ q, mkSend "retrieve_documents" (mkQueryState q)) <$> qs !! i)
  ∧ gather (@run_send E <$> tasks) = Ok outputs
  ∧ @researcher_graph_ainvoke E sample_configuration "step"
    = @researcher_graph_ainvoke_scheduled E sample_configuration "step"
        (λ tasks, tasks)
  ∧ ∃ merged,
      @researcher_graph_ainvoke_scheduled E sample_configuration "step"
        schedule
      = Ok (mkResearcherState "step" qs merged)
      ∧ NoDup (ids_of merged)
      ∧ list_to_set (ids_of merged)
        =@{gset value} list_to_set (doc_id <$> concat outputs)
      ∧ Forall (λ d, ∃ o, o ∈ concat outputs ∧ d = with_uuid o) merged
      ∧ (∀ o, o ∈ concat outputs →
              ∃ d, d ∈ merged ∧ metadata_get_uuid d = doc_id o)
      ∧ ((∀ o1 o2, o1 ∈ concat outputs → o2 ∈ concat outputs →
                   doc_id o1 = doc_id o2 → with_uuid o1 = with_uuid o2) →
         ∀ d, d ∈ merged ↔ ∃ o, o ∈ concat outputs ∧ d = with_uuid o).
Proof.
  intros E schedule qs state tasks outputs.
  split; [apply perm_swap|].
  apply (@researcher_fan_out E sample_configuration "step" schedule).
  apply perm_swap.
Defined.

(** C7, as worded, fails when two tasks return different documents
    under one id: the first one merged is kept and the other one is not
    in the merged collection. *)
Lemma fan_out_merges_union_of_outputs_fails :
  ¬ @fan_out_merges_union_of_outputs conflicting_external
      sample_configuration "step".
Proof.
  intros Hclaim.
  destruct (Hclaim (λ tasks, tasks)) as (merged & Hrun & Hunion);
    [reflexivity|].
  vm_compute in Hrun. injection Hrun as <-.
  assert (mkDocument "q2" {["uuid" := VStr "1"]}
          ∈ [mkDocument "q1" {["uuid" := VStr "1"]}]) as Hin.
  { apply Hunion. simpl. right. left. }
  apply list_elem_of_singleton in Hin. discriminate.
Qed.

(** ** The main graph *)

(** C5: [route_query] sends each of the three classifications to its
    node, and the conditional edge of the graph that leaves
    [analyze_and_route_query] is [route_query]. *)
Theorem route_query_maps_each_classification `{External}
    (msgs : list message) (rationale : string) (plan : list string)
    (docs : list Document) :
  let state tag := mkAgentState msgs (mkRouter rationale tag) plan docs in
  route_query (state "more-info") = Ok "ask_for_more_info"
  ∧ route_query (state "general") = Ok "respond_to_general_query"
  ∧ route_query (state "rag-research") = Ok "create_research_plan"
  ∧ (∀ tag, successor main_graph "analyze_and_route_query" (state tag)
            = route_query (state tag)).
Proof. repeat split. Qed.

Lemma run_from_step `{External} fuel g configuration node state trace
    f update state' next :
  node ≠ END →
  lookup_node g node = Some f →
  f configuration state = Ok update →
  apply_update state update = Ok state' →
  successor g node state' = Ok next →
  run_from (S fuel) g configuration node state trace
  = run_from fuel g configuration next state' (trace ++ [node]).
Proof.
  intros Hnode Hf Hupdate Hstate Hnext. simpl.
  rewrite decide_False by done.
  by rewrite Hf, Hupdate; simpl; rewrite Hstate; simpl; rewrite Hnext.
Qed.

Lemma gather_fmap_total {A B} (f : A → result B) (xs : list A) :
  (∀ x, ∃ y, f x = Ok y) →
  ∃ ys, gather (f <$> xs) = Ok ys ∧ length ys = length xs.
Proof.
  intros Hf. induction xs as [|x xs (ys & IH & Hlen)].
  - by exists [].
  - destruct (Hf x) as [y Hy]. exists (y :: ys).
    rewrite fmap_cons. cbn [gather]. rewrite Hy, IH. simpl. by rewrite Hlen.
Qed.

(** A run of the researcher graph on a step returns. *)
Lemma researcher_graph_ainvoke_total `{External}
    (configuration : AgentConfiguration) (step : string) :
  ∃ final, researcher_graph_ainvoke configuration step = Ok final.
Proof.
  unfold researcher_graph_ainvoke, retrieve_in_parallel. simpl.
  rewrite run_sends_outputs. simpl.
  destruct (merge_writes_ids
              (retriever_ainvoke
                 <$> generate_queries configuration
                       (mkResearcherState step [] [])) [])
    as (merged & -> & _); [constructor|].
  by eexists.
Qed.

(** [conduct_research] returns an update of [documents] alone, a list
    of [Document]s, which is empty when there is no step. *)
Lemma conduct_research_total `{External}
    (configuration : AgentConfiguration) (state : AgentState) :
  ∃ docs,
    conduct_research configuration state
    = Ok (mkAgentUpdate None None None (Some (NList (IDoc <$> docs))))
    ∧ (steps state = [] → docs = []).
Proof.
  unfold conduct_research, research_tasks.
  destruct (gather_fmap_total (researcher_graph_ainvoke configuration)
              (steps state) (researcher_graph_ainvoke_total configuration))
    as (results & Hresults & Hlen).
  rewrite Hresults. simpl. eexists. split; [reflexivity|].
  intros Hsteps. rewrite Hsteps in Hlen.
  apply length_zero_iff_nil in Hlen. by rewrite Hlen.
Qed.

(** C6, as the code has it: a turn classified ["rag-research"] visits
    [analyze_and_route_query], [create_research_plan],
    [conduct_research] and [respond], in this order and each once, and
    ends; the edges that leave planning and research do not look at the
    state.  With a plan of zero steps no research task is started and no
    document is added, and the response is generated from the documents
    the thread already held: from the empty context on a thread that
    held none. *)
Theorem research_turn_reaches_respond_once `{External}
    (configuration : AgentConfiguration) (checkpoint : option AgentState)
    (input : InputState) :
  let thread := default default_AgentState checkpoint in
  let msgs := messages thread ++ in_messages input in
  type (router_model ([system (router_system_prompt configuration)] ++ msgs))
  = "rag-research" →
  (∀ state, successor main_graph "create_research_plan" state
            = Ok "conduct_research")
  ∧ (∀ state, successor main_graph "conduct_research" state = Ok "respond")
  ∧ ∃ trace final added,
      ainvoke main_graph configuration checkpoint input = Ok (trace, final)
      ∧ trace = [ "analyze_and_route_query"; "create_research_plan";
                  "conduct_research"; "respond" ]
      ∧ count_occ string_dec trace "respond" = 1%nat
      ∧ steps final
        = plan_model
            ([system (research_plan_system_prompt configuration)] ++ msgs)
      ∧ documents final = documents thread ++ added
      ∧ messages final
        = msgs ++ [chat_model
                     ([ system (response_system_prompt configuration);
                        system ("<docs>" +:+ respond_context final
                                         +:+ "</docs>") ] ++ msgs)]
      ∧ (steps final = [] →
         research_tasks configuration final = []
         ∧ added = []
         ∧ respond_context final = respond_context thread
         ∧ (documents thread = [] → respond_context final = "")).
Proof.
  intros thread msgs Hrouter.
  split; [done|]. split; [done|].
  unfold ainvoke. fold thread.
  set (state0 := mkAgentState msgs (router thread) (steps thread)
                   (documents thread)).
  assert (apply_update thread
            (mkAgentUpdate (Some (in_messages input)) None None None)
          = Ok state0) as -> by done.
  cbn [mbind result_bind].
  assert (successor main_graph START state0 = Ok "analyze_and_route_query")
    as -> by done.
  cbn [mbind result_bind]. unfold recursion_limit.
  (* routing *)
  set (state1 := mkAgentState msgs
                   (router_model
                      ([system (router_system_prompt configuration)] ++ msgs))
                   (steps thread) (documents thread)).
  erewrite (run_from_step _ _ _ _ state0 _ analyze_and_route_query _ state1
             "create_research_plan");
    [|done|reflexivity|reflexivity|reflexivity|]; cycle 1.
  { change (route_query state1 = Ok "create_research_plan").
    unfold route_query, state1. cbn [type router]. by rewrite Hrouter. }
  (* planning *)
  set (plan := plan_model
                 ([system (research_plan_system_prompt configuration)]
                    ++ msgs)).
  set (state2 := mkAgentState msgs (router state1) plan (documents thread)).
  erewrite (run_from_step _ _ _ _ state1 _ create_research_plan _ state2
             "conduct_research"); try done.
  (* research *)
  destruct (conduct_research_total configuration state2)
    as (docs & Hresearch & Hnone).
  destruct (reduce_docs_dict_doc (documents thread) (IDoc <$> docs))
    as (added & Hreduce & _ & _).
  { apply Forall_fmap, Forall_true. done. }
  { apply Forall_fmap, Forall_true. done. }
  set (state3 := mkAgentState msgs (router state1) plan
                   (documents thread ++ added)).
  erewrite (run_from_step _ _ _ "conduct_research" state2 _ conduct_research
             _ state3 "respond");
    [|done|reflexivity|exact Hresearch| |reflexivity]; cycle 1.
  { unfold apply_update. simpl. rewrite Hreduce. done. }
  (* responding *)
  set (final := mkAgentState
                  (msgs ++ [chat_model
                              (respond_messages configuration state3)])
                  (router state1) plan (documents thread ++ added)).
  erewrite (run_from_step _ _ _ _ state3 _ respond _ final END); try done.
  exists [ "analyze_and_route_query"; "create_research_plan";
           "conduct_research"; "respond" ], final, added.
  split; [done|]. split; [done|]. split; [done|]. split; [done|].
  split; [done|]. split; [done|].
  simpl. intros Hplan.
  assert (added = []) as ->.
  { specialize (Hnone Hplan). subst docs.
    unfold reduce_docs in Hreduce. simpl in Hreduce.
    injection Hreduce as Hreduce.
    by apply app_inv_head in Hreduce. }
  split; [unfold research_tasks; simpl; by rewrite Hplan|].
  split; [done|].
  unfold respond_context. simpl. rewrite app_nil_r.
  split; [done|]. by intros ->.
Qed.

Lemma research_turn_reaches_respond_once_witness :
  let E := sample_external ["how is a retriever configured"] in
  let configuration := sample_configuration in
  let checkpoint : option AgentState := None in
  let input := mkInputState [human "how do I configure the retriever"] in
  let thread := default default_AgentState checkpoint in
  let msgs := messages thread ++ in_messages input in
  type (@router_model E
          ([system (router_system_prompt configuration)] ++ msgs))
  = "rag-research"
  ∧ (∀ state, @successor E main_graph "create_research_plan" state
              = Ok "conduct_research")
  ∧ (∀ state, @successor E main_graph "conduct_research" state
              = Ok "respond")
  ∧ ∃ trace final added,
      @ainvoke E main_graph configuration checkpoint input
      = Ok (trace, final)
      ∧ trace = [ "analyze_and_route_query"; "create_research_plan";
                  "conduct_research"; "respond" ]
      ∧ count_occ string_dec trace "respond" = 1%nat
      ∧ steps final
        = @plan_model E
            ([system (research_plan_system_prompt configuration)] ++ msgs)
      ∧ documents final = documents thread ++ added
      ∧ messages final
        = msgs ++ [@chat_model E
                     ([ system (response_system_prompt configuration);
                        system ("<docs>" +:+ respond_context final
                                         +:+ "</docs>") ] ++ msgs)]
      ∧ (steps final = [] →
         @research_tasks E configuration final = []
         ∧ added = []
         ∧ respond_context final = respond_context thread
         ∧ (documents thread = [] → respond_context final = "")).
Proof.
  intros E configuration checkpoint input thread msgs.
  split; [reflexivity|].
  apply (@research_turn_reaches_respond_once E configuration checkpoint input).
  reflexivity.
Defined.

(** C6, as worded, fails on a thread that already holds documents: with
    a plan of zero steps the response is generated from them, not from
    the empty context. *)
Lemma zero_step_turn_answers_from_empty_context_fails :
  ¬ @zero_step_turn_answers_from_empty_context (sample_external [])
      sample_configuration
      (Some (mkAgentState [human "first question"; mkMessage "ai" "first answer"]
               (mkRouter "" "rag-research") ["an earlier step"]
               [mkDocument "an earlier document" {["uuid" := VStr "e"]}]))
      (mkInputState [human "second question"]).
Proof.
  intros Hclaim.
  destruct (Hclaim eq_refl eq_refl) as (trace & final & Hrun & _ & Hlast).
  vm_compute in Hrun. injection Hrun as <- <-.
  vm_compute in Hlast. discriminate.
Qed.

(** ** The index graph *)

Lemma index_docs_without_documents `{External} (state : IndexState)
    (config : RunnableConfig) (store : list Document) :
  i_documents state = [] →
  config_is_empty config = false →
  index_docs state (Some config) store
  = Raise (TypeError "expected str, bytes or os.PathLike object, not Field").
Proof.
  intros Hdocs Hconfig. unfold index_docs. rewrite Hconfig, Hdocs. done.
Qed.

(** C8, on the code: with no documents in the state, [index_docs]
    raises [TypeError] from [open], whatever the file system holds and
    whatever [docs_file] the caller configures.  [open] is handed the
    [Field] object that the class attribute [docs_file] is bound to, and
    the handler of [FileNotFoundError] is not reached. *)
Theorem index_docs_missing_file_raises `{External} (store : list Document) :
  index_docs (mkIndexState [] [])
    (Some (mkRunnableConfig (Some {["docs_file" := PStr "missing.json"]}) []))
    store
  = Raise (TypeError "expected str, bytes or os.PathLike object, not Field").
Proof. by apply index_docs_without_documents. Qed.

(** ** The Milvus adapter *)

(** C9: [delete_documents] raises [NotImplementedError] for every list
    of ids and leaves the manager and the collection as they were. *)
Theorem milvus_delete_documents_unsupported (self : MilvusCRUDManager)
    (ids : list string) (collection : list Document) :
  ∃ msg,
    delete_documents self ids collection
    = (self, collection, Raise (NotImplementedError msg)).
Proof. by eexists. Qed.

(** * Further properties *)

(** ** The shape of a generated id *)

Lemma le_bytes_length k : ∀ n, length (md5.le_bytes k n) = k.
Proof. induction k as [|k IH]; intros n; simpl; [done|]. by rewrite IH. Qed.

Lemma le_bytes_range k :
  ∀ n, Forall (λ b, (0 ≤ b < 256)%Z) (md5.le_bytes k n).
Proof.
  induction k as [|k IH]; intros n; simpl; constructor; [|apply IH].
  apply Z.mod_pos_bound. lia.
Qed.

Lemma digest_bytes bytes :
  length (md5.digest bytes) = 16%nat
  ∧ Forall (λ b, (0 ≤ b < 256)%Z) (md5.digest bytes).
Proof.
  unfold md5.digest.
  destruct (md5.chunks _ _ _) as [[[a0 b0] c0] d0].
  split.
  - by rewrite !length_app, !le_bytes_length.
  - repeat (apply Forall_app; split); apply le_bytes_range.
Qed.

Lemma hex_digit_is_hex n :
  (0 ≤ n < 16)%Z → is_hex_digit (md5.hex_digit n) = true.
Proof.
  intros Hn.
  assert (n ∈ [0; 1; 2; 3; 4; 5; 6; 7; 8; 9; 10; 11; 12; 13; 14; 15]%Z)
    as Hcases.
  { assert (∃ k : nat, (k < 16)%nat ∧ n = Z.of_nat k) as (k & Hk & ->).
    { exists (Z.to_nat n). lia. }
    do 16 (destruct k as [|k]; [set_unfold; tauto|]). lia. }
  set_unfold.
  repeat (destruct Hcases as [->|Hcases]; [reflexivity|]). done.
Qed.

Lemma hex_length bytes :
  String.length (md5.hex bytes) = (2 * length bytes)%nat.
Proof. induction bytes as [|b bytes IH]; simpl; [done|]. rewrite IH. lia. Qed.

Lemma hex_is_hex bytes :
  Forall (λ b, (0 ≤ b < 256)%Z) bytes →
  string_forall is_hex_digit (md5.hex bytes) = true.
Proof.
  induction 1 as [|b bytes Hb _ IH]; simpl; [done|].
  rewrite IH, !hex_digit_is_hex; [done| |].
  - apply Z.mod_pos_bound. lia.
  - split; [apply Z.div_pos; lia|]. apply Z.div_lt_upper_bound; lia.
Qed.

(** X1: whatever the content, [_generate_uuid] returns a text of 36
    characters with a hyphen at the positions 8, 13, 18 and 23 and a
    lower-case hexadecimal digit at every other position. *)
Theorem generate_uuid_shape (page_content : string) :
  String.length (_generate_uuid page_content) = 36%nat
  ∧ ∀ i c,
      String.get i (_generate_uuid page_content) = Some c →
      if is_hyphen_position i then c = "-"%char else is_hex_digit c = true.
Proof.
  unfold _generate_uuid, md5.hexdigest.
  destruct (digest_bytes (md5.encode page_content)) as [Hlen Hrange].
  pose proof (hex_length (md5.digest (md5.encode page_content))) as Hhlen.
  pose proof (hex_is_hex _ Hrange) as Hhex.
  rewrite Hlen in Hhlen.
  destruct (md5.hex (md5.digest (md5.encode page_content))) as [|c0 h];
    [discriminate|].
  do 31 (destruct h as [|? h]; [discriminate|]).
  destruct h; [|discriminate].
  simpl in Hhex.
  repeat (apply andb_prop in Hhex as [? Hhex]).
  split; [reflexivity|].
  intros i c.
  do 36 (destruct i as [|i]; [simpl; intros [= <-]; done|]).
  discriminate.
Qed.

Lemma generate_uuid_length s : String.length (_generate_uuid s) = 36%nat.
Proof.
  unfold _generate_uuid, md5.hexdigest.
  destruct (digest_bytes (md5.encode s)) as [Hlen _].
  pose proof (hex_length (md5.digest (md5.encode s))) as Hhlen.
  rewrite Hlen in Hhlen.
  destruct (md5.hex (md5.digest (md5.encode s))) as [|c0 h]; [discriminate|].
  do 31 (destruct h as [|? h]; [discriminate|]).
  destruct h; [reflexivity|discriminate].
Qed.

Lemma generate_uuid_truthy s : truthy (VStr (_generate_uuid s)) = true.
Proof.
  pose proof (generate_uuid_length s) as Hlen. simpl.
  destruct (_generate_uuid s); [discriminate|done].
Qed.

(** ** The reducer: what a merge adds *)

Lemma dict_item_id_truthy d : truthy (dict_item_id d) = true.
Proof.
  unfold dict_item_id, py_or.
  destruct (truthy (default VNone _)) eqn:Hv; [done|].
  apply generate_uuid_truthy.
Qed.

Lemma doc_item_id_new_truthy doc : truthy (doc_item_id_new doc).1 = true.
Proof.
  unfold doc_item_id_new.
  destruct (truthy (default (VStr "") (metadata doc !! "uuid"))) eqn:Hv;
    simpl; [done|].
  apply generate_uuid_truthy.
Qed.

Lemma reduce_items_uuid_truthy items :
  ∀ ids new_list r,
    reduce_items items ids new_list = Ok r →
    Forall (λ d, truthy (metadata_get_uuid d) = true) new_list →
    Forall (λ d, truthy (metadata_get_uuid d) = true) r.
Proof.
  induction items as [|it items IH]; intros ids new_list r; simpl.
  { by intros [= <-]. }
  destruct it as [s|d|doc|].
  - intros Hr Hnl. apply (IH _ _ _ Hr). apply Forall_app. split; [done|].
    constructor; [|done]. unfold metadata_get_uuid. simpl.
    rewrite lookup_singleton_eq. apply generate_uuid_truthy.
  - case_decide; [|apply IH].
    destruct (d_page_content d) as [pc|]; simpl; [|done].
    intros Hr Hnl. apply (IH _ _ _ Hr). apply Forall_app. split; [done|].
    constructor; [|done]. unfold metadata_get_uuid. simpl.
    rewrite lookup_insert_eq. apply dict_item_id_truthy.
  - pose proof (doc_item_id_new_uuid doc) as Huuid.
    pose proof (doc_item_id_new_truthy doc) as Htruthy.
    destruct (doc_item_id_new doc) as [i new_item]. simpl in *.
    case_decide; [|apply IH].
    intros Hr Hnl. apply (IH _ _ _ Hr). apply Forall_app. split; [done|].
    constructor; [|done]. by rewrite Huuid.
  - apply IH.
Qed.

(** X2: every document a merge adds, whatever the input it comes from,
    carries a truthy [uuid] in its metadata. *)
Theorem reduce_docs_added_carry_uuid
    (existing : option (list Document)) (new : new_input)
    (r : list Document) :
  reduce_docs existing new = Ok r →
  ∀ d, d ∈ r →
       d ∈ default [] existing ∨ truthy (metadata_get_uuid d) = true.
Proof.
  unfold reduce_docs. case_decide as Hdel.
  { intros [= <-] d Hd. by apply not_elem_of_nil in Hd. }
  destruct new as [s|items|]; simpl.
  - intros [= <-] d [Hd|Hd%list_elem_of_singleton]%elem_of_app; [by left|].
    right. subst d. unfold metadata_get_uuid. simpl.
    rewrite lookup_singleton_eq. apply generate_uuid_truthy.
  - destruct (reduce_items items _ []) as [new_list|e] eqn:Hitems;
      simpl; [|done].
    intros [= <-] d [Hd|Hd]%elem_of_app; [by left|]. right.
    pose proof (reduce_items_uuid_truthy _ _ _ _ Hitems (Forall_nil_2 _))
      as Hall.
    rewrite Forall_forall in Hall. by apply Hall.
  - intros [= <-] d [Hd|Hd]%elem_of_app; [by left|].
    by apply not_elem_of_nil in Hd.
Qed.

Lemma reduce_docs_added_carry_uuid_witness :
  let r := [ mkDocument "A" {["uuid" := VInt 1]};
             mkDocument "B"
               {["uuid" := VStr "9d5ed678-fe57-bcca-6101-40957afab571"]};
             mkDocument "C" {["uuid" := VStr "c"; "source" := VStr "web"]} ] in
  reduce_docs (Some sample_existing) (NList sample_batch) = Ok r
  ∧ ∀ d, d ∈ r →
         d ∈ default [] (Some sample_existing)
         ∨ truthy (metadata_get_uuid d) = true.
Proof.
  intros r.
  assert (reduce_docs (Some sample_existing) (NList sample_batch) = Ok r)
    as Hr by (vm_compute; reflexivity).
  split; [exact Hr|].
  exact (reduce_docs_added_carry_uuid (Some sample_existing)
           (NList sample_batch) r Hr).
Defined.

(** A batch of [dict] and [Document] items that the loop gets through
    has appended the documents of the new ids, in the order of the
    batch. *)
Lemma reduce_items_ok_dict_doc items :
  Forall is_dict_or_doc items →
  ∀ ids new_list r,
    reduce_items items ids new_list = Ok r →
    ∃ added,
      r = new_list ++ added
      ∧ ids_of added = fresh_ids (omap item_id items) ids.
Proof.
  induction items as [|it items IH]; intros Hshape ids new_list r.
  { simpl. intros [= <-]. exists []. by rewrite app_nil_r. }
  apply Forall_cons in Hshape as [Hit Hshape]. specialize (IH Hshape).
  destruct it as [s|d|doc|]; simpl in *; try done.
  - case_decide as Hid.
    + destruct (d_page_content d) as [pc|]; simpl; [|done].
      intros (added & -> & Hids)%IH.
      eexists (_ :: added). split; [by rewrite <- app_assoc|].
      simpl. rewrite Hids. f_equal.
      unfold metadata_get_uuid. simpl. by rewrite lookup_insert_eq.
    + apply IH.
  - pose proof (doc_item_id_new_uuid doc) as Huuid.
    destruct (doc_item_id_new doc) as [i new_item]. simpl in *.
    case_decide as Hid.
    + intros (added & -> & Hids)%IH.
      eexists (_ :: added). split; [by rewrite <- app_assoc|].
      simpl. by rewrite Hids, Huuid.
    + apply IH.
Qed.

Lemma reduce_items_all_seen items :
  Forall is_dict_or_doc items →
  ∀ (ids : gset value) new_list,
    (∀ x, x ∈ omap item_id items → x ∈ ids) →
    reduce_items items ids new_list = Ok new_list.
Proof.
  induction items as [|it items IH]; intros Hshape ids new_list Hseen;
    [done|].
  apply Forall_cons in Hshape as [Hit Hshape]. specialize (IH Hshape).
  destruct it as [s|d|doc|]; simpl in *; try done.
  - rewrite decide_False.
    + apply IH. intros x Hx. apply Hseen. by right.
    + intros Hid. apply Hid, Hseen. by left.
  - destruct (doc_item_id_new doc) as [i new_item]. simpl in *.
    rewrite decide_False.
    + apply IH. intros x Hx. apply Hseen. by right.
    + intros Hid. apply Hid, Hseen. by left.
Qed.

Lemma ids_after_batch (existing added : list Document) (xs : list value) :
  ids_of added = fresh_ids xs (list_to_set (ids_of existing)) →
  list_to_set (ids_of (existing ++ added))
  =@{gset value} list_to_set (ids_of existing) ∪ list_to_set xs.
Proof.
  intros Hids. unfold ids_of at 1. rewrite fmap_app, list_to_set_app_L.
  fold (ids_of existing) (ids_of added). rewrite Hids.
  apply set_eq. intros x.
  pose proof (proj1 (set_eq _ _)
                (fresh_ids_set xs (list_to_set (ids_of existing))) x)
    as Hfresh.
  rewrite !elem_of_union in Hfresh. rewrite !elem_of_union. tauto.
Qed.

(** X3: merging a batch of [dict] and [Document] items into a
    collection whose ids are pairwise distinct gives a collection whose
    ids are pairwise distinct. *)
Theorem reduce_docs_keeps_ids_distinct
    (existing : list Document) (items : list item) (r : list Document) :
  Forall is_dict_or_doc items →
  NoDup (ids_of existing) →
  reduce_docs (Some existing) (NList items) = Ok r →
  NoDup (ids_of r).
Proof.
  intros Hshape Hnodup. unfold reduce_docs. rewrite decide_False by done.
  simpl.
  destruct (reduce_items items _ []) as [new_list|e] eqn:Hitems;
    simpl; [|done].
  intros [= <-].
  destruct (reduce_items_ok_dict_doc items Hshape _ _ _ Hitems)
    as (added & -> & Hids).
  simpl. unfold ids_of. rewrite fmap_app. apply NoDup_app.
  split; [done|]. fold (ids_of added). rewrite Hids.
  split; [|apply fresh_ids_NoDup].
  intros x Hx Hfresh%fresh_ids_not_seen. apply Hfresh.
  by apply elem_of_list_to_set.
Qed.

Lemma reduce_docs_keeps_ids_distinct_witness :
  let items := filter (λ it, recognised it = true) sample_batch in
  let r := [ mkDocument "A" {["uuid" := VInt 1]};
             mkDocument "B"
               {["uuid" := VStr "9d5ed678-fe57-bcca-6101-40957afab571"]};
             mkDocument "C" {["uuid" := VStr "c"; "source" := VStr "web"]} ] in
  Forall is_dict_or_doc items
  ∧ NoDup (ids_of sample_existing)
  ∧ reduce_docs (Some sample_existing) (NList items) = Ok r
  ∧ NoDup (ids_of r).
Proof.
  intros items r.
  assert (Forall is_dict_or_doc items) as Hshape
    by (vm_compute; repeat constructor).
  assert (NoDup (ids_of sample_existing)) as Hnodup
    by (apply NoDup_singleton).
  assert (reduce_docs (Some sample_existing) (NList items) = Ok r) as Hr
    by (vm_compute; reflexivity).
  split; [exact Hshape|]. split; [exact Hnodup|]. split; [exact Hr|].
  exact (reduce_docs_keeps_ids_distinct sample_existing items r
           Hshape Hnodup Hr).
Defined.

(** X4: merging a batch of [dict] and [Document] items a second time
    into the collection the first merge returned changes nothing, for
    every collection the first merge started from. *)
Theorem reduce_docs_same_batch_twice
    (existing : list Document) (items : list item) (r : list Document) :
  Forall is_dict_or_doc items →
  reduce_docs (Some existing) (NList items) = Ok r →
  reduce_docs (Some r) (NList items) = Ok r.
Proof.
  intros Hshape. unfold reduce_docs. rewrite !decide_False by done. simpl.
  destruct (reduce_items items _ []) as [new_list|e] eqn:Hitems;
    simpl; [|done].
  intros [= <-].
  destruct (reduce_items_ok_dict_doc items Hshape _ _ _ Hitems)
    as (added & -> & Hids).
  simpl in *.
  rewrite (reduce_items_all_seen items Hshape);
    [simpl; by rewrite app_nil_r|].
  intros x Hx. fold (ids_of (existing ++ added)).
  rewrite (ids_after_batch existing added _ Hids).
  apply elem_of_union. right. by apply elem_of_list_to_set.
Qed.

Lemma reduce_docs_same_batch_twice_witness :
  let items := filter (λ it, recognised it = true) sample_batch in
  let r := [ mkDocument "A" {["uuid" := VInt 1]};
             mkDocument "B"
               {["uuid" := VStr "9d5ed678-fe57-bcca-6101-40957afab571"]};
             mkDocument "C" {["uuid" := VStr "c"; "source" := VStr "web"]} ] in
  Forall is_dict_or_doc items
  ∧ reduce_docs (Some sample_existing) (NList items) = Ok r
  ∧ reduce_docs (Some r) (NList items) = Ok r.
Proof.
  intros items r.
  assert (Forall is_dict_or_doc items) as Hshape
    by (vm_compute; repeat constructor).
  assert (reduce_docs (Some sample_existing) (NList items) = Ok r) as Hr
    by (vm_compute; reflexivity).
  split; [exact Hshape|]. split; [exact Hr|].
  exact (reduce_docs_same_batch_twice sample_existing items r Hshape Hr).
Defined.

(** ** The reducer: items it skips, order, and failure *)

Lemma reduce_items_skips_unrecognised items :
  ∀ ids new_list,
    reduce_items items ids new_list
    = reduce_items (filter (λ it, recognised it = true) items) ids new_list.
Proof.
  induction items as [|it items IH]; intros ids new_list; [done|].
  destruct it as [s|d|doc|].
  - rewrite filter_cons_True by done. simpl. apply IH.
  - rewrite filter_cons_True by done. simpl.
    case_decide; [|apply IH].
    destruct (Document_of_kwargs _ _); simpl; [apply IH|done].
  - rewrite filter_cons_True by done. simpl.
    destruct (doc_item_id_new doc) as [i new_item].
    case_decide; apply IH.
  - rewrite filter_cons_False by done. simpl. apply IH.
Qed.

(** X5: items of a batch that are neither [str], [dict] nor [Document]
    are passed over without any effect: the merge returns what it
    returns on the batch without them. *)
Theorem reduce_docs_skips_unrecognised
    (existing : option (list Document)) (items : list item) :
  reduce_docs existing (NList items)
  = reduce_docs existing
      (NList (filter (λ it, recognised it = true) items)).
Proof.
  unfold reduce_docs. rewrite !decide_False by done. simpl.
  by rewrite reduce_items_skips_unrecognised.
Qed.

Lemma omap_length_le {A B} (f : A → option B) (l : list A) :
  (length (omap f l) ≤ length l)%nat.
Proof.
  induction l as [|x l IH]; [done|]. csimpl.
  destruct (f x); simpl; lia.
Qed.

Lemma reduce_items_sublist items :
  ∀ ids new_list r,
    reduce_items items ids new_list = Ok r →
    ∃ added,
      r = new_list ++ added
      ∧ added `sublist_of` omap new_item_of items.
Proof.
  induction items as [|it items IH]; intros ids new_list r.
  { simpl. intros [= <-]. exists []. by rewrite app_nil_r. }
  destruct it as [s|d|doc|]; csimpl.
  - intros (added & -> & Hsub)%IH.
    eexists (_ :: added). split; [by rewrite <- app_assoc|].
    by apply sublist_skip.
  - case_decide.
    + destruct (d_page_content d) as [pc|]; simpl; [|done].
      intros (added & -> & Hsub)%IH.
      eexists (_ :: added). split; [by rewrite <- app_assoc|].
      by apply sublist_skip.
    + intros (added & -> & Hsub)%IH. exists added. split; [done|].
      destruct (d_page_content d); [by apply sublist_cons|done].
  - destruct (doc_item_id_new doc) as [i new_item]. simpl.
    case_decide.
    + intros (added & -> & Hsub)%IH.
      eexists (_ :: added). split; [by rewrite <- app_assoc|].
      by apply sublist_skip.
    + intros (added & -> & Hsub)%IH. exists added. split; [done|].
      by apply sublist_cons.
  - apply IH.
Qed.

(** X6: the documents a list input adds are documents of its items, in
    the order of the items, each item giving at most one; the result is
    never longer than the existing collection and the batch together. *)
Theorem reduce_docs_adds_in_batch_order
    (existing : option (list Document)) (items : list item)
    (r : list Document) :
  reduce_docs existing (NList items) = Ok r →
  ∃ added,
    r = default [] existing ++ added
    ∧ added `sublist_of` omap new_item_of items
    ∧ (length r ≤ length (default [] existing) + length items)%nat.
Proof.
  unfold reduce_docs. rewrite decide_False by done. simpl.
  destruct (reduce_items items _ []) as [new_list|e] eqn:Hitems;
    simpl; [|done].
  intros [= <-].
  destruct (reduce_items_sublist _ _ _ _ Hitems) as (added & -> & Hsub).
  exists added. split; [done|]. split; [done|].
  rewrite length_app. simpl.
  pose proof (sublist_length _ _ Hsub).
  pose proof (omap_length_le new_item_of items). lia.
Qed.

Lemma reduce_docs_adds_in_batch_order_witness :
  let r := [ mkDocument "A" {["uuid" := VInt 1]};
             mkDocument "B"
               {["uuid" := VStr "9d5ed678-fe57-bcca-6101-40957afab571"]};
             mkDocument "C" {["uuid" := VStr "c"; "source" := VStr "web"]} ] in
  reduce_docs (Some sample_existing) (NList sample_batch) = Ok r
  ∧ ∃ added,
      r = default [] (Some sample_existing) ++ added
      ∧ added `sublist_of` omap new_item_of sample_batch
      ∧ (length r
         ≤ length (default [] (Some sample_existing)) + length sample_batch)%nat.
Proof.
  intros r.
  assert (reduce_docs (Some sample_existing) (NList sample_batch) = Ok r)
    as Hr by (vm_compute; reflexivity).
  split; [exact Hr|].
  exact (reduce_docs_adds_in_batch_order (Some sample_existing)
           sample_batch r Hr).
Defined.

(** X8: the document merged for a [Document] item has the content of
    the item and its metadata at every key but ["uuid"], carries the id
    of the item under ["uuid"], and is left as it is when it is merged
    again. *)
Theorem with_uuid_stable (doc : Document) :
  page_content (with_uuid doc) = page_content doc
  ∧ (∀ k, k ≠ "uuid" → metadata (with_uuid doc) !! k = metadata doc !! k)
  ∧ metadata_get_uuid (with_uuid doc) = doc_id doc
  ∧ doc_id (with_uuid doc) = doc_id doc
  ∧ with_uuid (with_uuid doc) = with_uuid doc.
Proof.
  pose proof (doc_item_id_new_uuid doc) as Huuid.
  pose proof (doc_item_id_new_truthy doc) as Htruthy.
  unfold with_uuid, doc_id in *.
  unfold doc_item_id_new in *.
  destruct (truthy (default (VStr "") (metadata doc !! "uuid"))) eqn:Hv;
    simpl in *.
  - rewrite Hv. simpl. repeat split; done.
  - rewrite lookup_insert_eq. simpl. rewrite Htruthy. simpl.
    repeat split; try done.
    intros k Hk. by rewrite lookup_insert_ne.
Qed.

(** ** The main graph: the other turns *)

Lemma route_query_unknown (state : AgentState) :
  type (router state) ∉ router_types →
  route_query state = Raise (KeyError (type (router state))).
Proof.
  intros Htag. unfold route_query.
  rewrite lookup_insert_ne, lookup_insert_ne, lookup_singleton_ne; [done|..];
    intros Heq; apply Htag; rewrite <- Heq; unfold router_types;
    set_unfold; tauto.
Qed.

(** The state a turn starts from and the state after routing. *)
Lemma ainvoke_routes `{External} (configuration : AgentConfiguration)
    (checkpoint : option AgentState) (input : InputState) :
  let thread := default default_AgentState checkpoint in
  let msgs := messages thread ++ in_messages input in
  let state0 := mkAgentState msgs (router thread) (steps thread)
                  (documents thread) in
  let state1 :=
    mkAgentState msgs
      (router_model ([system (router_system_prompt configuration)] ++ msgs))
      (steps thread) (documents thread) in
  ainvoke main_graph configuration checkpoint input
  = next ← route_query state1;
    run_from 24 main_graph configuration next state1
      ["analyze_and_route_query"].
Proof. reflexivity. Qed.

Lemma run_from_untraced `{External} (g : StateGraph)
    (configuration : AgentConfiguration) (fuel : nat) :
  ∀ node state trace,
    run_from fuel g configuration node state trace
    = untraced (run_from_traced fuel g configuration node state trace).
Proof.
  induction fuel as [|fuel IH]; intros node state trace; simpl.
  - by case_decide.
  - case_decide; [done|].
    destruct (lookup_node g node) as [f|]; [|done].
    destruct (f configuration state) as [update|e]; simpl; [|done].
    destruct (apply_update state update) as [state'|e]; simpl; [|done].
    destruct (successor g node state') as [next|e]; simpl; [|done].
    apply IH.
Qed.

(** A traced turn agrees with the turn. *)
Lemma ainvoke_untraced `{External} (g : StateGraph)
    (configuration : AgentConfiguration) (checkpoint : option AgentState)
    (input : InputState) :
  ainvoke g configuration checkpoint input
  = untraced (ainvoke_traced g configuration checkpoint input).
Proof.
  unfold ainvoke, ainvoke_traced.
  destruct (apply_update _ _) as [state|e]; cbn [mbind result_bind]; [|done].
  destruct (successor g START state) as [first|e];
    cbn [mbind result_bind]; [|done].
  apply run_from_untraced.
Qed.

Lemma ainvoke_traced_routes `{External} (configuration : AgentConfiguration)
    (checkpoint : option AgentState) (input : InputState) :
  let thread := default default_AgentState checkpoint in
  let msgs := messages thread ++ in_messages input in
  let state1 :=
    mkAgentState msgs
      (router_model ([system (router_system_prompt configuration)] ++ msgs))
      (steps thread) (documents thread) in
  ainvoke_traced main_graph configuration checkpoint input
  = match route_query state1 with
    | Raise e => (["analyze_and_route_query"], Raise e)
    | Ok next =>
        run_from_traced 24 main_graph configuration next state1
          ["analyze_and_route_query"]
    end.
Proof. reflexivity. Qed.


(** X9: a turn whose classification is none of the three that [Router]
    declares is aborted by [route_query] with [KeyError], right after
    the routing node: the routing node is the one node that has run. *)
Theorem unknown_classification_aborts_turn `{External}
    (configuration : AgentConfiguration) (checkpoint : option AgentState)
    (input : InputState) :
  let thread := default default_AgentState checkpoint in
  let msgs := messages thread ++ in_messages input in
  let tag :=
    type (router_model
            ([system (router_system_prompt configuration)] ++ msgs)) in
  tag ∉ router_types →
  ainvoke_traced main_graph configuration checkpoint input
  = (["analyze_and_route_query"], Raise (KeyError tag))
  ∧ ainvoke main_graph configuration checkpoint input
    = Raise (KeyError tag).
Proof.
  intros thread msgs tag Htag.
  assert (ainvoke_traced main_graph configuration checkpoint input
          = (["analyze_and_route_query"], Raise (KeyError tag))) as Htraced.
  { rewrite ainvoke_traced_routes. fold thread. fold msgs.
    by rewrite route_query_unknown. }
  split; [exact Htraced|].
  by rewrite ainvoke_untraced, Htraced.
Qed.

Lemma unknown_classification_aborts_turn_witness :
  let E := sample_external_routing "langchain" in
  let input := mkInputState [human "hello"] in
  let thread := default default_AgentState None in
  let msgs := messages thread ++ in_messages input in
  let tag :=
    type (@router_model E
            ([system (router_system_prompt sample_configuration)] ++ msgs)) in
  (tag ∉ router_types)
  ∧ @ainvoke_traced E main_graph sample_configuration None input
    = (["analyze_and_route_query"], Raise (KeyError tag))
  ∧ @ainvoke E main_graph sample_configuration None input
    = Raise (KeyError tag).
Proof.
  intros E input thread msgs tag.
  assert (tag ∉ router_types) as Htag.
  { apply not_elem_of_cons. split; [discriminate|].
    apply not_elem_of_cons. split; [discriminate|].
    apply not_elem_of_cons. split; [discriminate|].
    apply not_elem_of_nil. }
  split; [exact Htag|].
  exact (@unknown_classification_aborts_turn E sample_configuration None
           input Htag).
Defined.

(** X10: a turn classified ["more-info"] visits the routing node and
    [ask_for_more_info] and ends: one message is appended, the answer of
    the model to the [more_info_system_prompt] followed by the
    conversation, and the steps and the documents of the thread are left
    as they were. *)
Theorem more_info_turn `{External}
    (configuration : AgentConfiguration) (checkpoint : option AgentState)
    (input : InputState) :
  let thread := default default_AgentState checkpoint in
  let msgs := messages thread ++ in_messages input in
  let decision :=
    router_model ([system (router_system_prompt configuration)] ++ msgs) in
  type decision = "more-info" →
  ainvoke main_graph configuration checkpoint input
  = Ok ([ "analyze_and_route_query"; "ask_for_more_info" ],
        mkAgentState
          (msgs ++ [chat_model
                      ([system (more_info_system_prompt configuration)]
                         ++ msgs)])
          decision (steps thread) (documents thread)).
Proof.
  intros thread msgs decision Htag. rewrite ainvoke_routes.
  fold thread. fold msgs. fold decision.
  unfold route_query. cbn [type router]. rewrite Htag. reflexivity.
Qed.

Lemma more_info_turn_witness :
  let E := sample_external_routing "more-info" in
  let configuration := sample_configuration in
  let checkpoint : option AgentState := None in
  let input := mkInputState [human "it does not work"] in
  let thread := default default_AgentState checkpoint in
  let msgs := messages thread ++ in_messages input in
  let decision :=
    @router_model E
      ([system (router_system_prompt configuration)] ++ msgs) in
  type decision = "more-info"
  ∧ @ainvoke E main_graph configuration checkpoint input
    = Ok ([ "analyze_and_route_query"; "ask_for_more_info" ],
          mkAgentState
            (msgs ++ [@chat_model E
                        ([system (more_info_system_prompt configuration)]
                           ++ msgs)])
            decision (steps thread) (documents thread)).
Proof.
  intros E configuration checkpoint input thread msgs decision.
  split; [reflexivity|].
  exact (@more_info_turn E configuration checkpoint input eq_refl).
Defined.

(** X11: a turn classified ["general"] visits the routing node and
    [respond_to_general_query] and ends: one message is appended, the
    answer of the model to the [response_system_prompt] followed by the
    conversation, and the steps and the documents of the thread are left
    as they were. *)
Theorem general_turn `{External}
    (configuration : AgentConfiguration) (checkpoint : option AgentState)
    (input : InputState) :
  let thread := default default_AgentState checkpoint in
  let msgs := messages thread ++ in_messages input in
  let decision :=
    router_model ([system (router_system_prompt configuration)] ++ msgs) in
  type decision = "general" →
  ainvoke main_graph configuration checkpoint input
  = Ok ([ "analyze_and_route_query"; "respond_to_general_query" ],
        mkAgentState
          (msgs ++ [chat_model
                      ([system (response_system_prompt configuration)]
                         ++ msgs)])
          decision (steps thread) (documents thread)).
Proof.
  intros thread msgs decision Htag. rewrite ainvoke_routes.
  fold thread. fold msgs. fold decision.
  unfold route_query. cbn [type router]. rewrite Htag. reflexivity.
Qed.

Lemma general_turn_witness :
  let E := sample_external_routing "general" in
  let configuration := sample_configuration in
  let checkpoint : option AgentState := None in
  let input := mkInputState [human "hello"] in
  let thread := default default_AgentState checkpoint in
  let msgs := messages thread ++ in_messages input in
  let decision :=
    @router_model E
      ([system (router_system_prompt configuration)] ++ msgs) in
  type decision = "general"
  ∧ @ainvoke E main_graph configuration checkpoint input
    = Ok ([ "analyze_and_route_query"; "respond_to_general_query" ],
          mkAgentState
            (msgs ++ [@chat_model E
                        ([system (response_system_prompt configuration)]
                           ++ msgs)])
            decision (steps thread) (documents thread)).
Proof.
  intros E configuration checkpoint input thread msgs decision.
  split; [reflexivity|].
  exact (@general_turn E configuration checkpoint input eq_refl).
Defined.

Lemma lookup_node_main_graph `{External} (node : string) (f : node_fn) :
  lookup_node main_graph node = Some f →
  f = analyze_and_route_query ∨ f = ask_for_more_info
  ∨ f = respond_to_general_query ∨ f = create_research_plan
  ∨ f = conduct_research ∨ f = respond.
Proof.
  unfold lookup_node, main_graph, builder. simpl.
  repeat (case_bool_decide; [simpl; intros [= <-]; tauto|]).
  done.
Qed.

Lemma run_from_general_system_prompt `{External}
    (configuration : AgentConfiguration) (prompt : string) (fuel : nat) :
  ∀ node state trace,
    run_from fuel main_graph
      (with_general_system_prompt configuration prompt) node state trace
    = run_from fuel main_graph configuration node state trace.
Proof.
  induction fuel as [|fuel IH]; intros node state trace; simpl; [done|].
  case_decide; [done|].
  destruct (lookup_node main_graph node) as [f|] eqn:Hf; [|done].
  assert (f (with_general_system_prompt configuration prompt) state
          = f configuration state) as ->.
  { apply lookup_node_main_graph in Hf.
    destruct Hf as [->|[->|[->|[->|[->| ->]]]]]; reflexivity. }
  destruct (f configuration state) as [update|e]; simpl; [|done].
  destruct (apply_update state update) as [state'|e]; simpl; [|done].
  destruct (successor main_graph node state') as [next|e]; simpl; [|done].
  apply IH.
Qed.

(** X12: no node of the main graph reads [general_system_prompt]: a
    turn gives the same trace and the same final state, or the same
    exception, whatever this prompt is set to. *)
Theorem general_system_prompt_is_not_read `{External}
    (configuration : AgentConfiguration) (prompt : string)
    (checkpoint : option AgentState) (input : InputState) :
  ainvoke main_graph (with_general_system_prompt configuration prompt)
    checkpoint input
  = ainvoke main_graph configuration checkpoint input.
Proof.
  rewrite !ainvoke_routes.
  cbn [router_system_prompt with_general_system_prompt].
  destruct (route_query _) as [next|e]; cbn [mbind result_bind]; [|done].
  apply run_from_general_system_prompt.
Qed.




(** ** [conduct_research] and the researcher graph *)




(** X15: a run of the researcher graph on a step returns the step, the
    queries generated for it and the merged documents: no two of them
    share an id, there are as many as the retrieved documents have
    distinct ids, and there is none when no query was generated. *)
Theorem researcher_graph_run `{External}
    (configuration : AgentConfiguration) (step : string) :
  let qs := generate_queries configuration (mkResearcherState step [] []) in
  let retrieved := concat (retriever_ainvoke <$> qs) in
  ∃ docs,
    researcher_graph_ainvoke configuration step
    = Ok (mkResearcherState step qs docs)
    ∧ NoDup (ids_of docs)
    ∧ length docs = size (list_to_set (doc_id <$> retrieved) : gset value)
    ∧ (qs = [] → docs = []).
Proof.
  intros qs retrieved.
  unfold researcher_graph_ainvoke, retrieve_in_parallel. simpl.
  rewrite run_sends_outputs. simpl. fold qs.
  destruct (merge_writes_ids (retriever_ainvoke <$> qs) [])
    as (merged & Hmerged & _ & Hnodup & Hset & _); [constructor|].
  rewrite Hmerged. simpl. exists merged. split; [done|]. split; [done|].
  split.
  - rewrite <- (length_fmap metadata_get_uuid). fold (ids_of merged).
    rewrite <- (size_list_to_set (C := gset value)) by done.
    rewrite Hset. simpl. by rewrite (left_id_L ∅ (∪)).
  - intros Hqs. rewrite Hqs in Hmerged. simpl in Hmerged.
    by injection Hmerged as <-.
Qed.

(** ** [from_runnable_config] *)

Lemma non_empty_or_empty (c : gmap string pyobj) :
  (if decide (c = ∅) then ∅ else c) = c.
Proof. by case_decide. Qed.

Lemma lookup_configurable_field (c : gmap string pyobj) (k : string) :
  k ∈ BaseConfiguration_fields →
  filter (λ kv : string * pyobj, kv.1 ∈ BaseConfiguration_fields) c !! k
  = c !! k.
Proof.
  intros Hk. rewrite map_lookup_filter.
  destruct (c !! k) as [v|]; simpl; [|done].
  by rewrite option_guard_True.
Qed.

(** X16: [from_runnable_config] reads each of the three fields from
    the ["configurable"] entry of the configuration [ensure_config]
    returns and falls back on the default of the field when the entry,
    or the key, is missing there; nothing else of that configuration
    matters: two calls whose entries agree on the three fields give the
    same configuration. *)
Theorem from_runnable_config_reads_fields
    (ensure_config : option RunnableConfig → RunnableConfig)
    (config : option RunnableConfig) :
  let configuration :=
    BaseConfiguration_from_runnable_config ensure_config config in
  let entry := default ∅ (configurable (ensure_config config)) in
  embedding_model configuration
  = default (PStr "ollama/bge-m3:latest") (entry !! "embedding_model")
  ∧ retriever_provider configuration
    = default (PStr "elastic-local") (entry !! "retriever_provider")
  ∧ search_kwargs configuration
    = default (PDict ∅) (entry !! "search_kwargs")
  ∧ ∀ ensure_config' config',
      (∀ k, k ∈ BaseConfiguration_fields →
            default ∅ (configurable (ensure_config' config')) !! k
            = entry !! k) →
      BaseConfiguration_from_runnable_config ensure_config' config'
      = configuration.
Proof.
  intros configuration entry.
  assert (∀ ensure c,
            BaseConfiguration_from_runnable_config ensure c
            = BaseConfiguration_init
                (filter (λ kv, kv.1 ∈ BaseConfiguration_fields)
                   (default ∅ (configurable (ensure c))))) as Hconf.
  { intros ensure c. unfold BaseConfiguration_from_runnable_config.
    destruct (configurable (ensure c)) as [m|]; simpl; [|done].
    by rewrite non_empty_or_empty. }
  assert (∀ m : gmap string pyobj,
            BaseConfiguration_init
              (filter (λ kv, kv.1 ∈ BaseConfiguration_fields) m)
            = mkBaseConfiguration
                (default (PStr "ollama/bge-m3:latest") (m !! "embedding_model"))
                (default (PStr "elastic-local") (m !! "retriever_provider"))
                (default (PDict ∅) (m !! "search_kwargs"))) as Hinit.
  { intros m. unfold BaseConfiguration_init.
    by rewrite !lookup_configurable_field
      by (unfold BaseConfiguration_fields; set_unfold; tauto). }
  unfold configuration. rewrite Hconf, Hinit. fold entry. simpl.
  split_and!; try done.
  intros ensure_config' config' Hagree. rewrite Hconf, Hinit.
  by rewrite !Hagree by (unfold BaseConfiguration_fields; set_unfold; tauto).
Qed.

(** ** Names of the form [provider/model] *)

Lemma split_once_None sep s :
  split_once sep s = None ↔ contains_char sep s = false.
Proof.
  induction s as [|c s IH]; simpl; [done|].
  destruct (Ascii.eqb c sep); simpl; [done|].
  destruct (split_once sep s) as [[before after]|]; [|done].
  split; [done|]. intros Hs. by apply IH in Hs.
Qed.

Lemma split_once_Some sep s before after :
  split_once sep s = Some (before, after)
  ↔ s = before +:+ String sep after ∧ contains_char sep before = false.
Proof.
  revert before. induction s as [|c s IH]; intros before; simpl.
  - split; [done|]. intros [Hs _]. by destruct before.
  - destruct (Ascii.eqb c sep) eqn:Hc.
    + apply Ascii.eqb_eq in Hc as ->. split.
      * by intros [= <- <-].
      * intros [Hs Hbefore]. destruct before as [|b before]; simpl in *.
        -- by injection Hs as ->.
        -- injection Hs as <- _. by rewrite Ascii.eqb_refl in Hbefore.
    + case_eq (split_once sep s); [intros [b a] Hs|intros Hs].
      * split.
        -- intros [= <- <-]. apply IH in Hs as [-> Hb]. simpl.
           by rewrite Hc.
        -- intros [Heq Hbefore]. destruct before as [|b' before];
             simpl in *.
           ++ injection Heq as -> _. by rewrite Ascii.eqb_refl in Hc.
           ++ injection Heq as <- ->. rewrite Hc in Hbefore.
              simpl in Hbefore.
              rewrite (proj2 (IH before) (conj eq_refl Hbefore)) in Hs.
              by injection Hs as <- <-.
      * split; [done|].
        intros [Heq Hbefore]. destruct before as [|b' before]; simpl in *.
        -- injection Heq as -> _. by rewrite Ascii.eqb_refl in Hc.
        -- injection Heq as <- ->. rewrite Hc in Hbefore.
           simpl in Hbefore.
           rewrite (proj2 (IH before) (conj eq_refl Hbefore)) in Hs.
           discriminate.
Qed.

(** X17: [load_chat_model] splits a name at its first ["/"]: the text
    before it is the provider and all the text after it, further
    ["/"] included, the model; a name without ["/"] is a model with the
    empty provider.  The two arguments always give the name back. *)
Theorem load_chat_model_splits_at_first_slash (name : string) :
  let model := load_chat_model name in
  contains_char "/" (chat_model_provider model) = false
  ∧ (contains_char "/" name = true →
     name = chat_model_provider model +:+ "/" +:+ chat_model_name model)
  ∧ (contains_char "/" name = false →
     chat_model_provider model = "" ∧ chat_model_name model = name).
Proof.
  unfold load_chat_model.
  destruct (split_once "/" name) as [[provider model_name]|] eqn:Hsplit;
    simpl.
  - apply split_once_Some in Hsplit as [-> Hprovider].
    split; [done|]. split; [done|].
    intros Hnone. apply split_once_None in Hnone.
    pose proof (proj2 (split_once_Some "/" (provider +:+ String "/" model_name)
                         provider model_name) (conj eq_refl Hprovider)).
    congruence.
  - apply split_once_None in Hsplit. split; [done|]. split; [|done].
    congruence.
Qed.

Lemma after_calls_consistent calls :
  ∀ name model,
    after_calls calls !! name = Some model → model = load_chat_model name.
Proof.
  unfold after_calls.
  induction calls as [|c calls IH] using rev_ind; intros name model.
  - simpl. by rewrite lookup_empty.
  - rewrite foldl_app. simpl.
    destruct c as [n|]; simpl; [|unfold clear_cache; by rewrite lookup_empty].
    unfold get_model.
    destruct (foldl do_call ∅ calls !! n) as [m|] eqn:Hn; simpl; [apply IH|].
    destruct (decide (n = name)) as [->|Hne].
    + rewrite lookup_insert_eq. by intros [= <-].
    + rewrite lookup_insert_ne by done. apply IH.
Qed.

(** X18: on a manager that has served any sequence of [get_model] and
    [clear_cache] calls, [get_model] returns the model loaded from the
    name it is given, keeps every model that was cached, and caches the
    model: the same call made again returns the same model from the
    cache, logs that it did, and leaves the cache as it is. *)
Theorem get_model_caches (calls : list manager_call) (name : string) :
  let cache := after_calls calls in
  let '(cache', model, _) := get_model cache name in
  model = load_chat_model name
  ∧ cache' !! name = Some model
  ∧ (∀ other m, cache !! other = Some m → cache' !! other = Some m)
  ∧ get_model cache' name
    = (cache', model, "Using cached model: " +:+ name).
Proof.
  intros cache. unfold get_model.
  destruct (cache !! name) as [m|] eqn:Hname.
  - rewrite Hname. split; [by apply (after_calls_consistent calls)|].
    done.
  - rewrite lookup_insert_eq. split; [done|]. split; [done|].
    split; [|done].
    intros other m Hother. rewrite lookup_insert_ne; [done|].
    intros <-. congruence.
Qed.

(** X19: [make_text_encoder] succeeds exactly on the names
    [openai/<model>] and [ollama/<model>], giving the embeddings of
    that provider for all the text after the first ["/"] (for Ollama,
    at [http://localhost:11434]); on every other name it raises
    [ValueError]. *)
Theorem make_text_encoder_providers (name : string) :
  (∀ embeddings,
     make_text_encoder name = Ok embeddings
     ↔ (∃ model, name = "openai/" +:+ model
                 ∧ embeddings = OpenAIEmbeddings model)
       ∨ (∃ model, name = "ollama/" +:+ model
                   ∧ embeddings
                     = OllamaEmbeddings model "http://localhost:11434"))
  ∧ (∀ e, make_text_encoder name = Raise e → ∃ msg, e = ValueError msg).
Proof.
  unfold make_text_encoder.
  destruct (split_once "/" name) as [[provider model]|] eqn:Hsplit.
  - apply split_once_Some in Hsplit as [-> Hprovider].
    case_decide as Hopenai; [|case_decide as Hollama].
    + subst provider. split; [|done]. intros embeddings. split.
      * intros [= <-]. left. by exists model.
      * intros [(m & Hm & ->)|(m & Hm & ->)]; simpl in Hm.
        -- by injection Hm as ->.
        -- discriminate.
    + subst provider. split; [|done]. intros embeddings. split.
      * intros [= <-]. right. by exists model.
      * intros [(m & Hm & ->)|(m & Hm & ->)]; simpl in Hm.
        -- discriminate.
        -- by injection Hm as ->.
    + split; [|intros e [= <-]; by eexists].
      intros embeddings. split; [done|].
      assert (∀ p m, contains_char "/" p = false →
                provider +:+ String "/" model = p +:+ String "/" m →
                provider = p) as Hsame.
      { intros p m Hp Heq.
        pose proof (proj2 (split_once_Some "/" _ provider model)
                      (conj eq_refl Hprovider)) as H1.
        pose proof (proj2 (split_once_Some "/" _ p m) (conj eq_refl Hp))
          as H2.
        rewrite Heq in H1. congruence. }
      intros [(m & Hm & _)|(m & Hm & _)].
      * exfalso. apply Hopenai. by apply (Hsame "openai" m).
      * exfalso. apply Hollama. by apply (Hsame "ollama" m).
  - apply split_once_None in Hsplit.
    split; [|intros e [= <-]; by eexists].
    intros embeddings. split; [done|].
    intros [(m & -> & _)|(m & -> & _)]; simpl in Hsplit;
      rewrite orb_true_r in Hsplit || discriminate.
Qed.

(** X20: [_parse_namespace] splits the namespace (the default one when
    [MONGODB_NAMESPACE] is unset) at its first ["."] into the database
    and the collection; a namespace without ["."] is dropped as a whole
    and the default database and collection are returned. *)
Theorem parse_namespace_splits_at_first_dot (environ : gmap string string) :
  let namespace :=
    default "langgraph_retrieval_agent.default"
      (environ !! "MONGODB_NAMESPACE") in
  let '(db_name, collection_name) := _parse_namespace environ in
  (contains_char "." namespace = true →
   namespace = db_name +:+ "." +:+ collection_name
   ∧ contains_char "." db_name = false)
  ∧ (contains_char "." namespace = false →
     db_name = "langgraph_retrieval_agent" ∧ collection_name = "default")
  ∧ (environ !! "MONGODB_NAMESPACE" = None →
     db_name = "langgraph_retrieval_agent" ∧ collection_name = "default").
Proof.
  intros namespace. unfold _parse_namespace. fold namespace.
  destruct (split_once "." namespace) as [[db_name collection_name]|]
    eqn:Hsplit.
  - pose proof Hsplit as Hsome.
    apply split_once_Some in Hsplit as [Hns Hdb].
    split; [done|]. split.
    + intros Hnone%split_once_None. congruence.
    + intros Hunset. unfold namespace in Hsome. rewrite Hunset in Hsome.
      vm_compute in Hsome. by injection Hsome as <- <-.
  - apply split_once_None in Hsplit. split; [congruence|]. done.
Qed.
